(** * go-http-client: a registry of named HTTP client profiles

    A shallow embedding of [constants.go], [hystrixconfig.go],
    [requestconfig.go] and [client.go], and the properties of the
    configuration model, the engine selection and the dispatch pipeline.

    Conventions of the embedding.
    - Go's [int], [int64] and [time.Duration] are [Z]; arithmetic that can
      overflow is wrapped with [wrap64]. Durations count nanoseconds.
    - A Go map value is a reference: [nil] or a pointer to a table. The header
      and query tables of profiles and calls live in one store
      ([gmap loc (gmap string string)]), and a map-typed field holds
      [option loc]; [None] is the nil map. Configuration maps are only read,
      so they are carried by value as [option (gmap string any)].
    - A pair of results [(v, err)] is a Rocq pair whose second component is
      [option error]; [None] is the nil error.
    - What the package imports (spf13/cast, net/http, net/url, heimdall,
      google/uuid, the clock) is not part of the repository: the opaque types
      are the fields of [GoTypes], the library functions the fields of
      [GoLibs] and [GoRuntime], and every statement holds for all of them. *)

From Stdlib Require Import Ascii.
From stdpp Require Import base numbers strings gmap list pretty.

Local Open Scope Z_scope.

(** ** Integers, durations, errors *)

Definition wrap64 (z : Z) : Z := (z + 2 ^ 63) `mod` 2 ^ 64 - 2 ^ 63.

Definition Millisecond : Z := 1000000.
Definition Second : Z := 1000 * Millisecond.

(** [time.Duration(n) * time.Millisecond] *)
Definition millis (n : Z) : Z := wrap64 (n * Millisecond).

(** [d.Milliseconds()] *)
Definition Duration_Milliseconds (d : Z) : Z := d `quot` Millisecond.

Inductive error : Type := errors_New (msg : string).

Definition error_msg (e : error) : string := let 'errors_New s := e in s.

(** What a call yields: it returns, or the goroutine panics. *)
Inductive outcome (A : Type) : Type :=
  | Returned (a : A)
  | Panicked (why : string).
Arguments Returned {A} a.
Arguments Panicked {A} why.

Definition nilDereference : string :=
  "runtime error: invalid memory address or nil pointer dereference".

(** ** constants.go *)

Definition defaultKeepAlive : Z := Second * 30.
Definition defaultIdleConnectionTimeout : Z := Second * 90.
Definition defaultSleepWindowInMillis : Z := 5000.
Definition requestIDHeader : string := "X-requestId".
Definition idParam : string := "id".

(** ** Opaque Go types *)

Class GoTypes := {
  any : Type;                 (* interface{} *)
  float64 : Type;
  URL : Type;                 (* url.URL *)
  Reader : Type;              (* io.Reader *)
  Response : Type;            (* http.Response *)
  StatusCode : Response → Z;
  FallbackFunc : Type;        (* func(error) error *)
  CheckRedirectFunc : Type;   (* the redirect policy callback *)
  OtherRoundTripper : Type;   (* a RoundTripper other than http.Transport *)
  Logger : Type;              (* func(ctx, msg) *)
  Metrics : Type;             (* func(ctx, name, Metric) *)
  World : Type;               (* the network, the breaker state, the clock *)
}.

Definition loc := positive.

(** [m[k]] with the "comma ok" result, on a map that may be nil. *)
Definition mapIndex `{Countable K} {V} (m : option (gmap K V)) (k : K) : option V :=
  m ≫= (.!! k).

Section Model.
Context {T : GoTypes}.

(** A context is read through [Value] only, and only at the key [idParam];
    [nil] contexts are [None]. An absent key and a stored nil are the same
    to the reader, so stored values are the non-nil ones. *)
Definition Context := option (gmap string any).

(** ** What the configuration code takes from its imports *)

Record ConstantBackoff := {
  interval : Z;
  cb_maximumJitterInterval : Z;
}.

Record ExponentialBackoff := {
  initialTimeout : Z;
  maxTimeout : Z;
  exponentFactor : float64;
  eb_maximumJitterInterval : Z;
}.

(** The struct [getRetrier] reads; both pointers can be set at once. *)
Record BackoffPolicy := {
  constantBackoff : option ConstantBackoff;
  exponentialBackoff : option ExponentialBackoff;
}.

Class GoLibs := {
  (* github.com/spf13/cast *)
  cast_ToIntE : any → Z * option error;
  cast_ToFloat64E : any → float64 * option error;
  cast_ToStringE : any → string * option error;
  cast_ToStringMapE : any → option (gmap string any) * option error;
  cast_ToStringMapString : option (gmap string any) → gmap string string;
  float64_zero : float64;
  (* the type assertion v.(string) *)
  assertString : any → option string;
  (* runtime.GOMAXPROCS(0) *)
  GOMAXPROCS : Z;
  (* net/url, net/http *)
  url_Parse : string → URL + error;
  http_parseRequest : string → string → (string * URL) + error;
  url_addQuery : URL → gmap string string → URL;
  CanonicalMIMEHeaderKey : string → string;
  (* the order in which a range statement visits a map *)
  rangeMap : gmap string string → list (string * string);
  rangeMap_perm : ∀ m, rangeMap m ≡ₚ map_to_list m;
  (* google/uuid: the identifiers NewString hands out, in order *)
  uuid_source : nat → string;
  (* backoffpolicy.go of this package, which the sources do not include *)
  NewBackoffPolicy : option (gmap string any) → option BackoffPolicy;
}.

Context {L : GoLibs}.

(** ** requestconfig.go: the option resolver *)

Definition missing (key : string) : error := errors_New ("missing " +:+ key).

Definition getConfigOptionInt (options : option (gmap string any)) (key : string)
    : Z * option error :=
  match mapIndex options key with
  | Some val => cast_ToIntE val
  | None => (0, Some (missing key))
  end.

Definition getConfigOptionFloat (options : option (gmap string any)) (key : string)
    : float64 * option error :=
  match mapIndex options key with
  | Some val => cast_ToFloat64E val
  | None => (float64_zero, Some (missing key))
  end.

Definition getConfigOptionMap (options : option (gmap string any)) (key : string)
    : option (gmap string any) * option error :=
  match mapIndex options key with
  | Some val => cast_ToStringMapE val
  | None => (None, Some (missing key))
  end.

Definition getConfigOptionString (options : option (gmap string any)) (key : string)
    : string * option error :=
  match mapIndex options key with
  | Some val => cast_ToStringE val
  | None => (""%string, Some (missing key))
  end.

(** ** hystrixconfig.go *)

Record HystrixConfig := {
  hystrixTimeout : Z;
  maxConcurrentRequests : Z;
  errorPercentThreshold : Z;
  sleepWindowInMillis : Z;
  requestVolumeThreshold : Z;
  fallback : option FallbackFunc;
}.

Definition NewHystrixConfig (configMap : option (gmap string any)) : HystrixConfig :=
  let '(hystrixTimeout', err1) := getConfigOptionInt configMap "hystrixtimeoutinmillis" in
  let '(sleepWindow, err2) := getConfigOptionInt configMap "sleepwindowinmillis" in
  {| hystrixTimeout := if err1 is None then millis hystrixTimeout' else 0;
     sleepWindowInMillis :=
       if err2 is None then sleepWindow else defaultSleepWindowInMillis;
     maxConcurrentRequests := (getConfigOptionInt configMap "maxconcurrentrequests").1;
     errorPercentThreshold := (getConfigOptionInt configMap "errorpercentthreshold").1;
     requestVolumeThreshold := (getConfigOptionInt configMap "requestvolumethreshold").1;
     fallback := None |}.

(** ** requestconfig.go: the profile *)

Definition VersionTLS10 : Z := 769.
Definition VersionTLS11 : Z := 770.
Definition VersionTLS12 : Z := 771.
Definition VersionTLS13 : Z := 772.

Inductive ProxyFunc :=
  | ProxyFromEnvironment
  | ProxyURL (u : URL).

(** [http.Transport], with the dialer's two settings in place of its
    [DialContext] closure, and [tls.Config] reduced to its [MinVersion]. *)
Record Transport := {
  Proxy : ProxyFunc;
  Dialer_Timeout : Z;
  Dialer_KeepAlive : Z;
  ForceAttemptHTTP2 : bool;
  MaxIdleConns : Z;
  IdleConnTimeout : Z;
  TLSHandshakeTimeout : Z;
  ExpectContinueTimeout : Z;
  MaxIdleConnsPerHost : Z;
  TLSClientConfig : option Z;
}.

Inductive RoundTripper :=
  | HTTPTransport (t : Transport)
  | CustomRoundTripper (r : OtherRoundTripper).

Record RequestConfig := {
  rc_name : string;
  rc_method : string;
  rc_url : string;
  rc_timeout : Z;
  rc_connectTimeout : Z;
  rc_keepAlive : Z;
  rc_maxIdleConnections : Z;
  rc_idleConnectionTimeout : Z;
  rc_tlsHandshakeTimeout : Z;
  rc_expectContinueTimeout : Z;
  rc_proxyURL : string;
  rc_retryCount : Z;
  rc_backoffPolicy : option BackoffPolicy;
  rc_hystrixConfig : option HystrixConfig;
  rc_transport : option RoundTripper;
  rc_headers : option loc;
  rc_checkRedirect : option CheckRedirectFunc;
}.

Definition bareRequestConfig (name : string) : RequestConfig :=
  {| rc_name := name; rc_method := ""; rc_url := ""; rc_timeout := 0;
     rc_connectTimeout := 0; rc_keepAlive := 0; rc_maxIdleConnections := 0;
     rc_idleConnectionTimeout := 0; rc_tlsHandshakeTimeout := 0;
     rc_expectContinueTimeout := 0; rc_proxyURL := ""; rc_retryCount := 0;
     rc_backoffPolicy := None; rc_hystrixConfig := None; rc_transport := None;
     rc_headers := None; rc_checkRedirect := None |}.

Definition tlsConfigOf (tlsMinVersion : string) : option Z :=
  if decide (tlsMinVersion = "1.0"%string) then Some VersionTLS10
  else if decide (tlsMinVersion = "1.1"%string) then Some VersionTLS11
  else if decide (tlsMinVersion = "1.2"%string) then Some VersionTLS12
  else if decide (tlsMinVersion = "1.3"%string) then Some VersionTLS13
  else None.

(** The store of string-to-string tables, and allocation in it. *)
Definition alloc (h : gmap string string) (maps : gmap loc (gmap string string))
    : loc * gmap loc (gmap string string) :=
  let r := fresh (dom maps) in (r, <[r := h]> maps).

Definition NewRequestConfig (name : string) (configMap : option (gmap string any))
    (maps : gmap loc (gmap string string))
    : RequestConfig * gmap loc (gmap string string) :=
  match configMap with
  | None => (bareRequestConfig name, maps)
  | Some _ =>
    let method := (getConfigOptionString configMap "method").1 in
    let url := (getConfigOptionString configMap "url").1 in
    let '(timeout', errT) := getConfigOptionInt configMap "timeoutinmillis" in
    let timeout := if errT is None then millis timeout' else 0 in
    let '(connectTimeout', errC) := getConfigOptionInt configMap "connecttimeoutinmillis" in
    let connectTimeout :=
      if errC is None then millis connectTimeout' else timeout `quot` 10 in
    let '(keepAlive', errK) := getConfigOptionInt configMap "keepaliveinmillis" in
    let keepAlive := if errK is None then millis keepAlive' else defaultKeepAlive in
    let '(maxIdleConnections', errM) := getConfigOptionInt configMap "maxidleconnections" in
    let maxIdleConnections :=
      if errM is None then maxIdleConnections' else wrap64 (GOMAXPROCS + 1) in
    let '(idleConnectionTimeout', errI) :=
      getConfigOptionInt configMap "idleconnectiontimeoutinmillis" in
    let idleConnectionTimeout :=
      if errI is None then millis idleConnectionTimeout'
      else defaultIdleConnectionTimeout in
    let '(tlsHandshakeTimeout', errH) :=
      getConfigOptionInt configMap "tlshandshaketimeoutinmillis" in
    let tlsHandshakeTimeout := if errH is None then millis tlsHandshakeTimeout' else 0 in
    let '(expectContinueTimeout', errE) :=
      getConfigOptionInt configMap "expectcontinuetimeoutinmillis" in
    let expectContinueTimeout :=
      if errE is None then millis expectContinueTimeout' else 0 in
    let proxyURL := (getConfigOptionString configMap "proxyurl").1 in
    let '(retryCount', errR) := getConfigOptionInt configMap "retrycount" in
    let retryCount := if errR is None then retryCount' else 1 in
    let '(backoffPolicyMap, errB) := getConfigOptionMap configMap "backoffpolicy" in
    let backoffPolicy := if errB is None then NewBackoffPolicy backoffPolicyMap else None in
    let '(hystrixMap, errY) := getConfigOptionMap configMap "hystrixconfig" in
    let hystrixConfig := if errY is None then Some (NewHystrixConfig hystrixMap) else None in
    let '(headersMap, errS) := getConfigOptionMap configMap "headers" in
    let '(headers, maps') :=
      if errS is None
      then let '(r, maps') := alloc (cast_ToStringMapString headersMap) maps in
           (Some r, maps')
      else (None, maps) in
    let tlsConfig := tlsConfigOf (getConfigOptionString configMap "tlsminversion").1 in
    let transport :=
      {| Proxy := ProxyFromEnvironment;
         Dialer_Timeout := connectTimeout;
         Dialer_KeepAlive := keepAlive;
         ForceAttemptHTTP2 := true;
         MaxIdleConns := maxIdleConnections;
         IdleConnTimeout := idleConnectionTimeout;
         TLSHandshakeTimeout := tlsHandshakeTimeout;
         ExpectContinueTimeout := expectContinueTimeout;
         MaxIdleConnsPerHost := wrap64 (GOMAXPROCS + 1);
         TLSClientConfig := tlsConfig |} in
    ({| rc_name := name; rc_method := method; rc_url := url; rc_timeout := timeout;
        rc_connectTimeout := connectTimeout; rc_keepAlive := keepAlive;
        rc_maxIdleConnections := maxIdleConnections;
        rc_idleConnectionTimeout := idleConnectionTimeout;
        rc_tlsHandshakeTimeout := tlsHandshakeTimeout;
        rc_expectContinueTimeout := expectContinueTimeout;
        rc_proxyURL := proxyURL; rc_retryCount := retryCount;
        rc_backoffPolicy := backoffPolicy; rc_hystrixConfig := hystrixConfig;
        rc_transport := Some (HTTPTransport transport); rc_headers := headers;
        rc_checkRedirect := None |}, maps')
  end.

(** The setters; each returns the profile it was called on. *)
Definition SetName (name : string) (rc : RequestConfig) : RequestConfig :=
  {| rc_name := name; rc_method := rc_method rc; rc_url := rc_url rc;
     rc_timeout := rc_timeout rc; rc_connectTimeout := rc_connectTimeout rc;
     rc_keepAlive := rc_keepAlive rc;
     rc_maxIdleConnections := rc_maxIdleConnections rc;
     rc_idleConnectionTimeout := rc_idleConnectionTimeout rc;
     rc_tlsHandshakeTimeout := rc_tlsHandshakeTimeout rc;
     rc_expectContinueTimeout := rc_expectContinueTimeout rc;
     rc_proxyURL := rc_proxyURL rc; rc_retryCount := rc_retryCount rc;
     rc_backoffPolicy := rc_backoffPolicy rc; rc_hystrixConfig := rc_hystrixConfig rc;
     rc_transport := rc_transport rc; rc_headers := rc_headers rc;
     rc_checkRedirect := rc_checkRedirect rc |}.

Definition SetMethod (method : string) (rc : RequestConfig) : RequestConfig :=
  {| rc_name := rc_name rc; rc_method := method; rc_url := rc_url rc;
     rc_timeout := rc_timeout rc; rc_connectTimeout := rc_connectTimeout rc;
     rc_keepAlive := rc_keepAlive rc;
     rc_maxIdleConnections := rc_maxIdleConnections rc;
     rc_idleConnectionTimeout := rc_idleConnectionTimeout rc;
     rc_tlsHandshakeTimeout := rc_tlsHandshakeTimeout rc;
     rc_expectContinueTimeout := rc_expectContinueTimeout rc;
     rc_proxyURL := rc_proxyURL rc; rc_retryCount := rc_retryCount rc;
     rc_backoffPolicy := rc_backoffPolicy rc; rc_hystrixConfig := rc_hystrixConfig rc;
     rc_transport := rc_transport rc; rc_headers := rc_headers rc;
     rc_checkRedirect := rc_checkRedirect rc |}.

Definition SetURL (url : string) (rc : RequestConfig) : RequestConfig :=
  {| rc_name := rc_name rc; rc_method := rc_method rc; rc_url := url;
     rc_timeout := rc_timeout rc; rc_connectTimeout := rc_connectTimeout rc;
     rc_keepAlive := rc_keepAlive rc;
     rc_maxIdleConnections := rc_maxIdleConnections rc;
     rc_idleConnectionTimeout := rc_idleConnectionTimeout rc;
     rc_tlsHandshakeTimeout := rc_tlsHandshakeTimeout rc;
     rc_expectContinueTimeout := rc_expectContinueTimeout rc;
     rc_proxyURL := rc_proxyURL rc; rc_retryCount := rc_retryCount rc;
     rc_backoffPolicy := rc_backoffPolicy rc; rc_hystrixConfig := rc_hystrixConfig rc;
     rc_transport := rc_transport rc; rc_headers := rc_headers rc;
     rc_checkRedirect := rc_checkRedirect rc |}.

Definition SetTimeout (timeout : Z) (rc : RequestConfig) : RequestConfig :=
  {| rc_name := rc_name rc; rc_method := rc_method rc; rc_url := rc_url rc;
     rc_timeout := timeout; rc_connectTimeout := rc_connectTimeout rc;
     rc_keepAlive := rc_keepAlive rc;
     rc_maxIdleConnections := rc_maxIdleConnections rc;
     rc_idleConnectionTimeout := rc_idleConnectionTimeout rc;
     rc_tlsHandshakeTimeout := rc_tlsHandshakeTimeout rc;
     rc_expectContinueTimeout := rc_expectContinueTimeout rc;
     rc_proxyURL := rc_proxyURL rc; rc_retryCount := rc_retryCount rc;
     rc_backoffPolicy := rc_backoffPolicy rc; rc_hystrixConfig := rc_hystrixConfig rc;
     rc_transport := rc_transport rc; rc_headers := rc_headers rc;
     rc_checkRedirect := rc_checkRedirect rc |}.

Definition SetRetryCount (retryCount : Z) (rc : RequestConfig) : RequestConfig :=
  {| rc_name := rc_name rc; rc_method := rc_method rc; rc_url := rc_url rc;
     rc_timeout := rc_timeout rc; rc_connectTimeout := rc_connectTimeout rc;
     rc_keepAlive := rc_keepAlive rc;
     rc_maxIdleConnections := rc_maxIdleConnections rc;
     rc_idleConnectionTimeout := rc_idleConnectionTimeout rc;
     rc_tlsHandshakeTimeout := rc_tlsHandshakeTimeout rc;
     rc_expectContinueTimeout := rc_expectContinueTimeout rc;
     rc_proxyURL := rc_proxyURL rc; rc_retryCount := retryCount;
     rc_backoffPolicy := rc_backoffPolicy rc; rc_hystrixConfig := rc_hystrixConfig rc;
     rc_transport := rc_transport rc; rc_headers := rc_headers rc;
     rc_checkRedirect := rc_checkRedirect rc |}.

Definition SetBackoffPolicy (backoffPolicy : option BackoffPolicy) (rc : RequestConfig) : RequestConfig :=
  {| rc_name := rc_name rc; rc_method := rc_method rc; rc_url := rc_url rc;
     rc_timeout := rc_timeout rc; rc_connectTimeout := rc_connectTimeout rc;
     rc_keepAlive := rc_keepAlive rc;
     rc_maxIdleConnections := rc_maxIdleConnections rc;
     rc_idleConnectionTimeout := rc_idleConnectionTimeout rc;
     rc_tlsHandshakeTimeout := rc_tlsHandshakeTimeout rc;
     rc_expectContinueTimeout := rc_expectContinueTimeout rc;
     rc_proxyURL := rc_proxyURL rc; rc_retryCount := rc_retryCount rc;
     rc_backoffPolicy := backoffPolicy; rc_hystrixConfig := rc_hystrixConfig rc;
     rc_transport := rc_transport rc; rc_headers := rc_headers rc;
     rc_checkRedirect := rc_checkRedirect rc |}.

Definition SetHystrixConfig (hystrixConfig : option HystrixConfig) (rc : RequestConfig) : RequestConfig :=
  {| rc_name := rc_name rc; rc_method := rc_method rc; rc_url := rc_url rc;
     rc_timeout := rc_timeout rc; rc_connectTimeout := rc_connectTimeout rc;
     rc_keepAlive := rc_keepAlive rc;
     rc_maxIdleConnections := rc_maxIdleConnections rc;
     rc_idleConnectionTimeout := rc_idleConnectionTimeout rc;
     rc_tlsHandshakeTimeout := rc_tlsHandshakeTimeout rc;
     rc_expectContinueTimeout := rc_expectContinueTimeout rc;
     rc_proxyURL := rc_proxyURL rc; rc_retryCount := rc_retryCount rc;
     rc_backoffPolicy := rc_backoffPolicy rc; rc_hystrixConfig := hystrixConfig;
     rc_transport := rc_transport rc; rc_headers := rc_headers rc;
     rc_checkRedirect := rc_checkRedirect rc |}.

(** The setters of the breaker configuration. *)
Definition SetHystrixTimeout (timeout : Z) (hc : HystrixConfig) : HystrixConfig :=
  {| hystrixTimeout := timeout; maxConcurrentRequests := maxConcurrentRequests hc;
     errorPercentThreshold := errorPercentThreshold hc;
     sleepWindowInMillis := sleepWindowInMillis hc;
     requestVolumeThreshold := requestVolumeThreshold hc; fallback := fallback hc |}.

Definition SetMaxConcurrentRequests (n : Z) (hc : HystrixConfig) : HystrixConfig :=
  {| hystrixTimeout := hystrixTimeout hc; maxConcurrentRequests := n;
     errorPercentThreshold := errorPercentThreshold hc;
     sleepWindowInMillis := sleepWindowInMillis hc;
     requestVolumeThreshold := requestVolumeThreshold hc; fallback := fallback hc |}.

Definition SetErrorPercentThreshold (n : Z) (hc : HystrixConfig) : HystrixConfig :=
  {| hystrixTimeout := hystrixTimeout hc;
     maxConcurrentRequests := maxConcurrentRequests hc; errorPercentThreshold := n;
     sleepWindowInMillis := sleepWindowInMillis hc;
     requestVolumeThreshold := requestVolumeThreshold hc; fallback := fallback hc |}.

Definition SetSleepWindowInMillis (n : Z) (hc : HystrixConfig) : HystrixConfig :=
  {| hystrixTimeout := hystrixTimeout hc;
     maxConcurrentRequests := maxConcurrentRequests hc;
     errorPercentThreshold := errorPercentThreshold hc; sleepWindowInMillis := n;
     requestVolumeThreshold := requestVolumeThreshold hc; fallback := fallback hc |}.

Definition SetRequestVolumeThreshold (n : Z) (hc : HystrixConfig) : HystrixConfig :=
  {| hystrixTimeout := hystrixTimeout hc;
     maxConcurrentRequests := maxConcurrentRequests hc;
     errorPercentThreshold := errorPercentThreshold hc;
     sleepWindowInMillis := sleepWindowInMillis hc; requestVolumeThreshold := n;
     fallback := fallback hc |}.

Definition SetFallback (fallbackFn : option FallbackFunc) (hc : HystrixConfig) : HystrixConfig :=
  {| hystrixTimeout := hystrixTimeout hc;
     maxConcurrentRequests := maxConcurrentRequests hc;
     errorPercentThreshold := errorPercentThreshold hc;
     sleepWindowInMillis := sleepWindowInMillis hc;
     requestVolumeThreshold := requestVolumeThreshold hc; fallback := fallbackFn |}.

Definition SetProxy (proxyURL : string) (rc : RequestConfig) : RequestConfig :=
  {| rc_name := rc_name rc; rc_method := rc_method rc; rc_url := rc_url rc;
     rc_timeout := rc_timeout rc; rc_connectTimeout := rc_connectTimeout rc;
     rc_keepAlive := rc_keepAlive rc;
     rc_maxIdleConnections := rc_maxIdleConnections rc;
     rc_idleConnectionTimeout := rc_idleConnectionTimeout rc;
     rc_tlsHandshakeTimeout := rc_tlsHandshakeTimeout rc;
     rc_expectContinueTimeout := rc_expectContinueTimeout rc; rc_proxyURL := proxyURL;
     rc_retryCount := rc_retryCount rc; rc_backoffPolicy := rc_backoffPolicy rc;
     rc_hystrixConfig := rc_hystrixConfig rc; rc_transport := rc_transport rc;
     rc_headers := rc_headers rc; rc_checkRedirect := rc_checkRedirect rc |}.

Definition SetConnectTimeout (connectTimeout : Z) (rc : RequestConfig) : RequestConfig :=
  {| rc_name := rc_name rc; rc_method := rc_method rc; rc_url := rc_url rc;
     rc_timeout := rc_timeout rc; rc_connectTimeout := connectTimeout;
     rc_keepAlive := rc_keepAlive rc;
     rc_maxIdleConnections := rc_maxIdleConnections rc;
     rc_idleConnectionTimeout := rc_idleConnectionTimeout rc;
     rc_tlsHandshakeTimeout := rc_tlsHandshakeTimeout rc;
     rc_expectContinueTimeout := rc_expectContinueTimeout rc;
     rc_proxyURL := rc_proxyURL rc; rc_retryCount := rc_retryCount rc;
     rc_backoffPolicy := rc_backoffPolicy rc; rc_hystrixConfig := rc_hystrixConfig rc;
     rc_transport := rc_transport rc; rc_headers := rc_headers rc;
     rc_checkRedirect := rc_checkRedirect rc |}.

Definition SetKeepAlive (keepalive : Z) (rc : RequestConfig) : RequestConfig :=
  {| rc_name := rc_name rc; rc_method := rc_method rc; rc_url := rc_url rc;
     rc_timeout := rc_timeout rc; rc_connectTimeout := rc_connectTimeout rc;
     rc_keepAlive := keepalive; rc_maxIdleConnections := rc_maxIdleConnections rc;
     rc_idleConnectionTimeout := rc_idleConnectionTimeout rc;
     rc_tlsHandshakeTimeout := rc_tlsHandshakeTimeout rc;
     rc_expectContinueTimeout := rc_expectContinueTimeout rc;
     rc_proxyURL := rc_proxyURL rc; rc_retryCount := rc_retryCount rc;
     rc_backoffPolicy := rc_backoffPolicy rc; rc_hystrixConfig := rc_hystrixConfig rc;
     rc_transport := rc_transport rc; rc_headers := rc_headers rc;
     rc_checkRedirect := rc_checkRedirect rc |}.

Definition SetMaxIdleConnections (maxIdleConnections : Z) (rc : RequestConfig) : RequestConfig :=
  {| rc_name := rc_name rc; rc_method := rc_method rc; rc_url := rc_url rc;
     rc_timeout := rc_timeout rc; rc_connectTimeout := rc_connectTimeout rc;
     rc_keepAlive := rc_keepAlive rc; rc_maxIdleConnections := maxIdleConnections;
     rc_idleConnectionTimeout := rc_idleConnectionTimeout rc;
     rc_tlsHandshakeTimeout := rc_tlsHandshakeTimeout rc;
     rc_expectContinueTimeout := rc_expectContinueTimeout rc;
     rc_proxyURL := rc_proxyURL rc; rc_retryCount := rc_retryCount rc;
     rc_backoffPolicy := rc_backoffPolicy rc; rc_hystrixConfig := rc_hystrixConfig rc;
     rc_transport := rc_transport rc; rc_headers := rc_headers rc;
     rc_checkRedirect := rc_checkRedirect rc |}.

Definition SetIdleConnectionTimeout (idleConnectionTimeout : Z) (rc : RequestConfig) : RequestConfig :=
  {| rc_name := rc_name rc; rc_method := rc_method rc; rc_url := rc_url rc;
     rc_timeout := rc_timeout rc; rc_connectTimeout := rc_connectTimeout rc;
     rc_keepAlive := rc_keepAlive rc;
     rc_maxIdleConnections := rc_maxIdleConnections rc;
     rc_idleConnectionTimeout := idleConnectionTimeout;
     rc_tlsHandshakeTimeout := rc_tlsHandshakeTimeout rc;
     rc_expectContinueTimeout := rc_expectContinueTimeout rc;
     rc_proxyURL := rc_proxyURL rc; rc_retryCount := rc_retryCount rc;
     rc_backoffPolicy := rc_backoffPolicy rc; rc_hystrixConfig := rc_hystrixConfig rc;
     rc_transport := rc_transport rc; rc_headers := rc_headers rc;
     rc_checkRedirect := rc_checkRedirect rc |}.

Definition SetTLSHandshakeTimeout (tlsHandshakeTimeout : Z) (rc : RequestConfig) : RequestConfig :=
  {| rc_name := rc_name rc; rc_method := rc_method rc; rc_url := rc_url rc;
     rc_timeout := rc_timeout rc; rc_connectTimeout := rc_connectTimeout rc;
     rc_keepAlive := rc_keepAlive rc;
     rc_maxIdleConnections := rc_maxIdleConnections rc;
     rc_idleConnectionTimeout := rc_idleConnectionTimeout rc;
     rc_tlsHandshakeTimeout := tlsHandshakeTimeout;
     rc_expectContinueTimeout := rc_expectContinueTimeout rc;
     rc_proxyURL := rc_proxyURL rc; rc_retryCount := rc_retryCount rc;
     rc_backoffPolicy := rc_backoffPolicy rc; rc_hystrixConfig := rc_hystrixConfig rc;
     rc_transport := rc_transport rc; rc_headers := rc_headers rc;
     rc_checkRedirect := rc_checkRedirect rc |}.

Definition SetExpectContinueTimeout (expectContinueTimeout : Z) (rc : RequestConfig) : RequestConfig :=
  {| rc_name := rc_name rc; rc_method := rc_method rc; rc_url := rc_url rc;
     rc_timeout := rc_timeout rc; rc_connectTimeout := rc_connectTimeout rc;
     rc_keepAlive := rc_keepAlive rc;
     rc_maxIdleConnections := rc_maxIdleConnections rc;
     rc_idleConnectionTimeout := rc_idleConnectionTimeout rc;
     rc_tlsHandshakeTimeout := rc_tlsHandshakeTimeout rc;
     rc_expectContinueTimeout := expectContinueTimeout; rc_proxyURL := rc_proxyURL rc;
     rc_retryCount := rc_retryCount rc; rc_backoffPolicy := rc_backoffPolicy rc;
     rc_hystrixConfig := rc_hystrixConfig rc; rc_transport := rc_transport rc;
     rc_headers := rc_headers rc; rc_checkRedirect := rc_checkRedirect rc |}.

Definition SetTransport (transport : option RoundTripper) (rc : RequestConfig) : RequestConfig :=
  {| rc_name := rc_name rc; rc_method := rc_method rc; rc_url := rc_url rc;
     rc_timeout := rc_timeout rc; rc_connectTimeout := rc_connectTimeout rc;
     rc_keepAlive := rc_keepAlive rc;
     rc_maxIdleConnections := rc_maxIdleConnections rc;
     rc_idleConnectionTimeout := rc_idleConnectionTimeout rc;
     rc_tlsHandshakeTimeout := rc_tlsHandshakeTimeout rc;
     rc_expectContinueTimeout := rc_expectContinueTimeout rc;
     rc_proxyURL := rc_proxyURL rc; rc_retryCount := rc_retryCount rc;
     rc_backoffPolicy := rc_backoffPolicy rc; rc_hystrixConfig := rc_hystrixConfig rc;
     rc_transport := transport; rc_headers := rc_headers rc;
     rc_checkRedirect := rc_checkRedirect rc |}.

Definition SetCheckRedirect (checkRedirect : option CheckRedirectFunc) (rc : RequestConfig) : RequestConfig :=
  {| rc_name := rc_name rc; rc_method := rc_method rc; rc_url := rc_url rc;
     rc_timeout := rc_timeout rc; rc_connectTimeout := rc_connectTimeout rc;
     rc_keepAlive := rc_keepAlive rc;
     rc_maxIdleConnections := rc_maxIdleConnections rc;
     rc_idleConnectionTimeout := rc_idleConnectionTimeout rc;
     rc_tlsHandshakeTimeout := rc_tlsHandshakeTimeout rc;
     rc_expectContinueTimeout := rc_expectContinueTimeout rc;
     rc_proxyURL := rc_proxyURL rc; rc_retryCount := rc_retryCount rc;
     rc_backoffPolicy := rc_backoffPolicy rc; rc_hystrixConfig := rc_hystrixConfig rc;
     rc_transport := rc_transport rc; rc_headers := rc_headers rc;
     rc_checkRedirect := checkRedirect |}.

(** [rc.Transport()] *)
Definition Transport_of (rc : RequestConfig) : option RoundTripper := rc_transport rc.

(** The fallback is kept only by a profile that has a breaker
    configuration. The configuration is carried by value: the write shows
    in the profile, which is where the engine is built from, and not in
    another holder of the same configuration, as it does in the code. *)
Definition SetHystrixFallback (fallbackFn : option FallbackFunc) (rc : RequestConfig)
    : RequestConfig :=
  match rc_hystrixConfig rc with
  | Some hc => SetHystrixConfig (Some (SetFallback fallbackFn hc)) rc
  | None => rc
  end.

(** The profile gets a new table made from the map it is given. *)
Definition SetHeaderParams (headers : option (gmap string any)) (rc : RequestConfig)
    (maps : gmap loc (gmap string string))
    : RequestConfig * gmap loc (gmap string string) :=
  let '(p, maps') := alloc (cast_ToStringMapString headers) maps in
  ({| rc_name := rc_name rc; rc_method := rc_method rc; rc_url := rc_url rc;
      rc_timeout := rc_timeout rc; rc_connectTimeout := rc_connectTimeout rc;
      rc_keepAlive := rc_keepAlive rc;
      rc_maxIdleConnections := rc_maxIdleConnections rc;
      rc_idleConnectionTimeout := rc_idleConnectionTimeout rc;
      rc_tlsHandshakeTimeout := rc_tlsHandshakeTimeout rc;
      rc_expectContinueTimeout := rc_expectContinueTimeout rc;
      rc_proxyURL := rc_proxyURL rc; rc_retryCount := rc_retryCount rc;
      rc_backoffPolicy := rc_backoffPolicy rc; rc_hystrixConfig := rc_hystrixConfig rc;
      rc_transport := rc_transport rc; rc_headers := Some p;
      rc_checkRedirect := rc_checkRedirect rc |},
   maps').

(** ** client.go: engines *)

(** heimdall's backoffs and retriers, as the values their constructors
    are given. *)
Inductive Backoff :=
  | NewConstantBackoff (backoffInterval maximumJitterInterval : Z)
  | NewExponentialBackoff (initialTimeout' maxTimeout' : Z)
      (exponentFactor' : float64) (maximumJitterInterval : Z).

Inductive Retriable :=
  | NewRetrier (b : Backoff)
  | NewNoRetrier.

(** [http.Client] as [getClient] fills it; the cookie jar is a new, empty
    one each time and is left out. *)
Record http_Client := {
  hc_Timeout : Z;
  hc_Transport : option RoundTripper;
  hc_CheckRedirect : option CheckRedirectFunc;
}.

(** The two engines, each with the options [buildHTTPClient] passes. *)
Inductive heimdall_Client :=
  | httpclient_NewClient (doer : http_Client) (httpTimeout retryCount : Z)
      (retrier : Retriable)
  | hystrix_NewClient (doer : http_Client) (commandName : string)
      (httpTimeout retryCount : Z) (retrier : Retriable)
      (hystrixTimeout' maxConcurrentRequests' errorPercentThreshold'
       sleepWindow requestVolumeThreshold' : Z)
      (fallbackFunc : option FallbackFunc).

Definition getRetrier (requestConfig : RequestConfig) : Retriable :=
  match rc_backoffPolicy requestConfig with
  | Some {| constantBackoff := Some cb |} =>
      NewRetrier (NewConstantBackoff (interval cb) (cb_maximumJitterInterval cb))
  | Some {| constantBackoff := None; exponentialBackoff := Some eb |} =>
      NewRetrier (NewExponentialBackoff (initialTimeout eb) (maxTimeout eb)
                    (exponentFactor eb) (eb_maximumJitterInterval eb))
  | _ => NewNoRetrier
  end.

Definition transport (c : http_Client) : Transport + error :=
  match hc_Transport c with
  | Some (HTTPTransport t) => inl t
  | _ => inr (errors_New "current transport is not an *http.Transport instance")
  end.

Definition withProxy (p : ProxyFunc) (t : Transport) : Transport :=
  {| Proxy := p; Dialer_Timeout := Dialer_Timeout t;
     Dialer_KeepAlive := Dialer_KeepAlive t;
     ForceAttemptHTTP2 := ForceAttemptHTTP2 t; MaxIdleConns := MaxIdleConns t;
     IdleConnTimeout := IdleConnTimeout t;
     TLSHandshakeTimeout := TLSHandshakeTimeout t;
     ExpectContinueTimeout := ExpectContinueTimeout t;
     MaxIdleConnsPerHost := MaxIdleConnsPerHost t;
     TLSClientConfig := TLSClientConfig t |}.

(** Both failures are logged and the client is returned as it is. The
    transport is carried by value: the write to its proxy field shows in
    the client built here, and not in the profile nor in another client
    that was given the same transport, as it does in the code; what is
    stated of more than one client is stated where no such write is made. *)
Definition setProxy (requestConfig : RequestConfig) (client : http_Client)
    : http_Client :=
  if decide (rc_proxyURL requestConfig = ""%string) then client
  else
    match transport client with
    | inr _ => client
    | inl t =>
      match url_Parse (rc_proxyURL requestConfig) with
      | inr _ => client
      | inl pURL =>
          {| hc_Timeout := hc_Timeout client;
             hc_Transport := Some (HTTPTransport (withProxy (ProxyURL pURL) t));
             hc_CheckRedirect := hc_CheckRedirect client |}
      end
    end.

Definition getClient (requestConfig : RequestConfig) : http_Client :=
  setProxy requestConfig
    {| hc_Timeout := rc_timeout requestConfig;
       hc_Transport := rc_transport requestConfig;
       hc_CheckRedirect := rc_checkRedirect requestConfig |}.

Definition buildHTTPClient (requestConfig : RequestConfig) : heimdall_Client :=
  match rc_hystrixConfig requestConfig with
  | None =>
      httpclient_NewClient (getClient requestConfig) (rc_timeout requestConfig)
        (rc_retryCount requestConfig) (getRetrier requestConfig)
  | Some hc =>
      hystrix_NewClient (getClient requestConfig) (rc_name requestConfig)
        (rc_timeout requestConfig) (rc_retryCount requestConfig)
        (getRetrier requestConfig) (hystrixTimeout hc) (maxConcurrentRequests hc)
        (errorPercentThreshold hc) (sleepWindowInMillis hc)
        (requestVolumeThreshold hc) (fallback hc)
  end.

(** ** client.go: the registry *)

Record ClientRequestMapping := {
  heimdallClient : option heimdall_Client;
  requestConfig : option RequestConfig;
}.

(** [c_ol] and [c_om] are the two [sync.Once]: true once it has run. *)
Record Client := {
  httpClients : gmap string ClientRequestMapping;
  c_ol : bool;
  c_l : option Logger;
  c_om : bool;
  c_m : option Metrics;
}.

Definition register (httpClients : gmap string ClientRequestMapping)
    (requestConfig : option RequestConfig) : gmap string ClientRequestMapping :=
  match requestConfig with
  | Some rc =>
      <[rc_name rc := {| heimdallClient := Some (buildHTTPClient rc);
                         requestConfig := Some rc |}]> httpClients
  | None => httpClients
  end.

Definition ConfigureHTTPClient (requestConfigs : list (option RequestConfig)) : Client :=
  {| httpClients := foldl register ∅ requestConfigs;
     c_ol := false; c_l := None; c_om := false; c_m := None |}.

Definition WithLogger (l : option Logger) (c : Client) : Client :=
  match l with
  | Some _ =>
      if c_ol c then c
      else {| httpClients := httpClients c; c_ol := true; c_l := l;
              c_om := c_om c; c_m := c_m c |}
  | None => c
  end.

Definition WithMetrics (m : option Metrics) (c : Client) : Client :=
  match m with
  | Some _ =>
      if c_om c then c
      else {| httpClients := httpClients c; c_ol := c_ol c; c_l := c_l c;
              c_om := true; c_m := m |}
  | None => c
  end.

(** ** client.go: the dispatcher *)

Record Metric := {
  Status : Z;
  LatencyInMillis : Z;
}.

(** The call, with the fields [Client.Request] reads and writes. Its two
    map fields are references into the store. *)
Record Request := {
  req_name : string;
  req_ctx : Context;
  req_method : string;
  req_url : string;
  req_queryParams : option loc;
  req_headerParams : option loc;
  req_body : option Reader;
}.

(** [http.Header] holds, under each canonical name, the values added to
    it in order. *)
Record http_Request := {
  Method : string;
  URL_ : URL;
  Header : gmap string (list string);
  Body : option Reader;
  ctx_ : Context;
}.

Inductive Event :=
  | EvDo (engine : heimdall_Client) (req : http_Request)
      (response : option Response) (err : option error)
  | EvLog (l : Logger) (ctx : Context) (msg : string)
  | EvMetric (m : Metrics) (ctx : Context) (name : string) (metric : Metric).

Class GoRuntime := {
  (* time.Now(), in nanoseconds *)
  time_Now : World → Z * World;
  (* what the engine's Do does with a request *)
  heimdall_Do : heimdall_Client → http_Request → World
                → (option Response * option error) * World;
}.

Context {R : GoRuntime}.

(** The state a dispatch runs in: the store of header and query tables,
    how many identifiers the generator has handed out, the calls made to
    the engine (with what each returned) and to the observers, oldest
    first, and the world outside. *)
Record State := {
  maps : gmap loc (gmap string string);
  uuids : nat;
  events : list Event;
  world : World;
}.

Definition set_maps (f : gmap loc (gmap string string) → gmap loc (gmap string string))
    (σ : State) : State :=
  {| maps := f (maps σ); uuids := uuids σ; events := events σ; world := world σ |}.

Definition set_world (w : World) (σ : State) : State :=
  {| maps := maps σ; uuids := uuids σ; events := events σ; world := w |}.

Definition emit (e : Event) (σ : State) : State :=
  {| maps := maps σ; uuids := uuids σ; events := events σ ++ [e]; world := world σ |}.

Definition uuid_NewString (σ : State) : string * State :=
  (uuid_source (uuids σ),
   {| maps := maps σ; uuids := S (uuids σ); events := events σ; world := world σ |}).

Definition now (σ : State) : Z * State :=
  let '(t, w) := time_Now (world σ) in (t, set_world w σ).

Definition minInt64 : Z := - 2 ^ 63.
Definition maxInt64 : Z := 2 ^ 63 - 1.

(** [t.Sub(u)]: the difference, kept within a [Duration]. *)
Definition Time_Sub (t u : Z) : Z := minInt64 `max` (maxInt64 `min` (t - u)).

Definition with_method (method : string) (r : Request) : Request :=
  {| req_name := req_name r; req_ctx := req_ctx r; req_method := method;
     req_url := req_url r; req_queryParams := req_queryParams r;
     req_headerParams := req_headerParams r; req_body := req_body r |}.

Definition with_url (url : string) (r : Request) : Request :=
  {| req_name := req_name r; req_ctx := req_ctx r; req_method := req_method r;
     req_url := url; req_queryParams := req_queryParams r;
     req_headerParams := req_headerParams r; req_body := req_body r |}.

Definition with_headerParams (headerParams : option loc) (r : Request) : Request :=
  {| req_name := req_name r; req_ctx := req_ctx r; req_method := req_method r;
     req_url := req_url r; req_queryParams := req_queryParams r;
     req_headerParams := headerParams; req_body := req_body r |}.

(** Modelled from the spec: [request.go], with [NewRequest] and the
    setters of [Request], is not among the sources. A new call carries its
    name and nothing else (nil maps, empty method and URL, nil context). *)
Definition NewRequest (name : string) : Request :=
  {| req_name := name; req_ctx := None; req_method := ""; req_url := "";
     req_queryParams := None; req_headerParams := None; req_body := None |}.

(** Modelled from the spec: [Request.SetHeaderParam] of [request.go]. The
    header is set in the call's own header table, which is made first when
    the call has none; no table is copied. (A reference always points into
    the store; one that did not would read as the empty table.) *)
Definition SetHeaderParam (param value : string) (r : Request) (σ : State)
    : Request * State :=
  match req_headerParams r with
  | Some p =>
      (r, set_maps (λ maps, <[p := <[param := value]> (default ∅ (maps !! p))]> maps) σ)
  | None =>
      let '(p, maps') := alloc {[param := value]} (maps σ) in
      (with_headerParams (Some p) r, set_maps (λ _, maps') σ)
  end.

Definition getRequestID (ctx : Context) (σ : State) : string * State :=
  match ctx with
  | Some values =>
      match values !! idParam with
      | Some id =>
          match assertString id with
          | Some s => (s, σ)
          | None => uuid_NewString σ
          end
      | None => uuid_NewString σ
      end
  | None => uuid_NewString σ
  end.

Definition Header_Add (h : gmap string (list string)) (key value : string)
    : gmap string (list string) :=
  let key := CanonicalMIMEHeaderKey key in
  <[key := default [] (h !! key) ++ [value]]> h.

Definition addHeaders (kvs : list (string * string)) (h : gmap string (list string))
    : gmap string (list string) :=
  foldl (λ h kv, Header_Add h kv.1 kv.2) h kvs.

(** [http_parseRequest] is what [http.NewRequest] checks and parses: the
    method and the URL of the new request, or its error. *)
Definition getRequest (ctx : Context) (method url : string)
    (queryParams headerParams : option (gmap string string)) (body : option Reader)
    : http_Request + error :=
  match http_parseRequest method url with
  | inr err => inr err
  | inl (method', u) =>
      inl {| Method := method';
             URL_ := match queryParams with
                     | Some q => url_addQuery u q
                     | None => u
                     end;
             Header := addHeaders (from_option rangeMap [] headerParams) ∅;
             Body := body;
             ctx_ := ctx |}
  end.

(** What a reference points to; the nil map reads as nil. *)
Definition deref (σ : State) (p : option loc) : option (gmap string string) :=
  p ≫= (maps σ !!.).

Definition fulfilled (name : string) (statusCode ms : Z) : string :=
  "Fulfilled http request " +:+ name +:+ " with status " +:+ pretty statusCode
    +:+ " in duration " +:+ pretty ms +:+ " ms".

Definition logLatencyAndStatusCode (c : Client) (request : Request) (start : Z)
    (statusCode : Z) (σ : State) : State :=
  match c_l c with
  | Some l =>
      let '(t, σ) := now σ in
      emit (EvLog l (req_ctx request)
              (fulfilled (req_name request) statusCode
                 (Duration_Milliseconds (Time_Sub t start)))) σ
  | None => σ
  end.

Definition metricLatencyAndStatusCode (c : Client) (request : Request) (start : Z)
    (statusCode : Z) (σ : State) : State :=
  match c_m c with
  | Some m =>
      let '(t, σ) := now σ in
      emit (EvMetric m (req_ctx request) (req_name request)
              {| Status := statusCode;
                 LatencyInMillis := Duration_Milliseconds (Time_Sub t start) |}) σ
  | None => σ
  end.

(** The zero value a map lookup yields for a name that is not registered. *)
Definition noMapping : ClientRequestMapping :=
  {| heimdallClient := None; requestConfig := None |}.

(** Lines 101 to 111: each default is read through the profile pointer,
    which is nil for a name that is not registered. *)
Definition fillDefaults (client : ClientRequestMapping) (request : Request)
    : option Request :=
  r1 ← (if decide (req_method request = ""%string)
        then rc ← requestConfig client; Some (with_method (rc_method rc) request)
        else Some request);
  r2 ← (if decide (req_url r1 = ""%string)
        then rc ← requestConfig client; Some (with_url (rc_url rc) r1)
        else Some r1);
  if req_headerParams r2 is None
  then rc ← requestConfig client; Some (with_headerParams (rc_headers rc) r2)
  else Some r2.

(** [Client.Request]. Besides what the call yields, the result has the
    call object and the state as the dispatch leaves them. *)
Definition Client_Request (c : Client) (request : Request) (σ : State)
    : outcome (option Response * option error) * Request * State :=
  let client := default noMapping (httpClients c !! req_name request) in
  match fillDefaults client request with
  | None => (Panicked nilDereference, request, σ)
  | Some request =>
    let '(id, σ) := getRequestID (req_ctx request) σ in
    let '(request, σ) := SetHeaderParam requestIDHeader id request σ in
    let '(start, σ) := now σ in
    match getRequest (req_ctx request) (req_method request) (req_url request)
            (deref σ (req_queryParams request)) (deref σ (req_headerParams request))
            (req_body request) with
    | inr err => (Returned (None, Some err), request, σ)
    | inl req =>
      match heimdallClient client with
      | None => (Panicked nilDereference, request, σ)
      | Some engine =>
        let '(response, err, w) := heimdall_Do engine req (world σ) in
        let σ := emit (EvDo engine req response err) (set_world w σ) in
        match err, response with
        | None, None =>
            (Returned (None, Some (errors_New "unable to fetch response")), request, σ)
        | None, Some resp =>
            let σ := logLatencyAndStatusCode c request start (StatusCode resp) σ in
            let σ := metricLatencyAndStatusCode c request start (StatusCode resp) σ in
            (Returned (response, err), request, σ)
        | Some _, _ => (Returned (response, err), request, σ)
        end
      end
    end
  end.

(** ** What the properties are stated with *)

(** A key resolves to no integer when it is missing or its value does not
    cast. *)
Definition unresolvedInt (options : option (gmap string any)) (key : string) : Prop :=
  mapIndex options key = None
  ∨ ∃ val err, mapIndex options key = Some val ∧ (cast_ToIntE val).2 = Some err.

Definition retrierOf (engine : heimdall_Client) : Retriable :=
  match engine with
  | httpclient_NewClient _ _ _ retrier => retrier
  | hystrix_NewClient _ _ _ _ retrier _ _ _ _ _ _ => retrier
  end.

Inductive EngineKind :=
  | PlainRetry
  | Breaker (commandName : string).

Definition kindOf (engine : heimdall_Client) : EngineKind :=
  match engine with
  | httpclient_NewClient _ _ _ _ => PlainRetry
  | hystrix_NewClient _ commandName _ _ _ _ _ _ _ _ _ => Breaker commandName
  end.

Definition entryOf (rc : RequestConfig) : ClientRequestMapping :=
  {| heimdallClient := Some (buildHTTPClient rc); requestConfig := Some rc |}.

(** The last profile of the list that has the given name. *)
Fixpoint lastNamed (name : string) (rcs : list (option RequestConfig))
    : option RequestConfig :=
  match rcs with
  | [] => None
  | x :: rcs =>
      match lastNamed name rcs with
      | Some rc => Some rc
      | None =>
          match x with
          | Some rc => if decide (rc_name rc = name) then Some rc else None
          | None => None
          end
      end
  end.

(** The calls that set observers on a client. *)
Inductive Setter :=
  | CallWithLogger (l : option Logger)
  | CallWithMetrics (m : option Metrics).

Definition call (c : Client) (k : Setter) : Client :=
  match k with
  | CallWithLogger l => WithLogger l c
  | CallWithMetrics m => WithMetrics m c
  end.

Definition firstLogger (ks : list Setter) : option Logger :=
  head (omap (λ k, if k is CallWithLogger l then l else None) ks).

Definition firstMetrics (ks : list Setter) : option Metrics :=
  head (omap (λ k, if k is CallWithMetrics m then m else None) ks).

(** What the two [sync.Once] guard: a slot is set exactly when its once
    has run. *)
Definition once_consistent (c : Client) : Prop :=
  (c_ol c = true ↔ is_Some (c_l c)) ∧ (c_om c = true ↔ is_Some (c_m c)).

(** The string a context holds under [idParam], if it holds one. *)
Definition contextID (ctx : Context) : option string :=
  values ← ctx; id ← values !! idParam; assertString id.

(** The identifier of a dispatch that starts when [n] identifiers have
    been generated. *)
Definition requestID (ctx : Context) (n : nat) : string :=
  default (uuid_source n) (contextID ctx).

(** The call after lines 101 to 111, for a profile that is registered. *)
Definition defaulted (rc : RequestConfig) (request : Request) : Request :=
  with_headerParams
    (if req_headerParams request is None then rc_headers rc
     else req_headerParams request)
    (with_url (if decide (req_url request = ""%string) then rc_url rc
               else req_url request)
       (with_method (if decide (req_method request = ""%string) then rc_method rc
                     else req_method request)
          request)).

(** The header of the wire request made from a table. *)
Definition wireHeader (tbl : gmap string string) : gmap string (list string) :=
  addHeaders (rangeMap tbl) ∅.

(** The values a wire header has under a canonical name. *)
Definition valuesOf (h : gmap string (list string)) (key : string) : list string :=
  default [] (h !! key).

Definition isObserver (e : Event) : Prop :=
  match e with
  | EvDo _ _ _ _ => False
  | _ => True
  end.

Definition unableToFetch : error := errors_New "unable to fetch response".

Definition pick (key : string) (kv : string * string) : option string :=
  if decide (CanonicalMIMEHeaderKey kv.1 = key) then Some kv.2 else None.

Definition outcomeOf (response : option Response) (err : option error)
    : outcome (option Response * option error) :=
  match err, response with
  | None, None => Returned (None, Some unableToFetch)
  | _, _ => Returned (response, err)
  end.

(** The wire requests among the calls of a trace. *)
Definition sentRequests (es : list Event) : list http_Request :=
  omap (λ e, if e is EvDo _ req _ _ then Some req else None) es.

(** The keys [NewRequestConfig] reads, and those [NewHystrixConfig] reads. *)
Definition profileKeys : list string :=
  ["method"; "url"; "timeoutinmillis"; "connecttimeoutinmillis"; "keepaliveinmillis";
   "maxidleconnections"; "idleconnectiontimeoutinmillis";
   "tlshandshaketimeoutinmillis"; "expectcontinuetimeoutinmillis"; "proxyurl";
   "retrycount"; "backoffpolicy"; "hystrixconfig"; "headers"; "tlsminversion"]%string.

Definition breakerKeys : list string :=
  ["hystrixtimeoutinmillis"; "sleepwindowinmillis"; "maxconcurrentrequests";
   "errorpercentthreshold"; "requestvolumethreshold"]%string.

(** The transport made for a profile from its resolved fields. *)
Definition transportFor (rc : RequestConfig) (tlsConfig : option Z) : Transport :=
  {| Proxy := ProxyFromEnvironment;
     Dialer_Timeout := rc_connectTimeout rc;
     Dialer_KeepAlive := rc_keepAlive rc;
     ForceAttemptHTTP2 := true;
     MaxIdleConns := rc_maxIdleConnections rc;
     IdleConnTimeout := rc_idleConnectionTimeout rc;
     TLSHandshakeTimeout := rc_tlsHandshakeTimeout rc;
     ExpectContinueTimeout := rc_expectContinueTimeout rc;
     MaxIdleConnsPerHost := wrap64 (GOMAXPROCS + 1);
     TLSClientConfig := tlsConfig |}.

(** What a map with none of the keys resolves to. *)
Definition defaultedFields (name : string) : RequestConfig :=
  {| rc_name := name; rc_method := ""; rc_url := ""; rc_timeout := 0;
     rc_connectTimeout := 0; rc_keepAlive := defaultKeepAlive;
     rc_maxIdleConnections := wrap64 (GOMAXPROCS + 1);
     rc_idleConnectionTimeout := defaultIdleConnectionTimeout;
     rc_tlsHandshakeTimeout := 0; rc_expectContinueTimeout := 0; rc_proxyURL := "";
     rc_retryCount := 1; rc_backoffPolicy := None; rc_hystrixConfig := None;
     rc_transport := None; rc_headers := None; rc_checkRedirect := None |}.

Definition defaultProfile (name : string) : RequestConfig :=
  SetTransport (Some (HTTPTransport (transportFor (defaultedFields name) None)))
    (defaultedFields name).

(** [setProxy] writes to no transport for the profile. *)
Definition proxyNotApplied (rc : RequestConfig) : Prop :=
  rc_proxyURL rc = ""%string
  ∨ rc_transport rc = None
  ∨ (∃ r, rc_transport rc = Some (CustomRoundTripper r))
  ∨ (∃ e, url_Parse (rc_proxyURL rc) = inr e).

Definition doerOf (engine : heimdall_Client) : http_Client :=
  match engine with
  | httpclient_NewClient doer _ _ _ => doer
  | hystrix_NewClient doer _ _ _ _ _ _ _ _ _ _ => doer
  end.

Definition httpTimeoutOf (engine : heimdall_Client) : Z :=
  match engine with
  | httpclient_NewClient _ httpTimeout _ _ => httpTimeout
  | hystrix_NewClient _ _ httpTimeout _ _ _ _ _ _ _ _ => httpTimeout
  end.

Definition fallbackOf (engine : heimdall_Client) : option FallbackFunc :=
  match engine with
  | httpclient_NewClient _ _ _ _ => None
  | hystrix_NewClient _ _ _ _ _ _ _ _ _ _ fallbackFunc => fallbackFunc
  end.

(** The names of the profiles of a list, in order. *)
Definition namesOf (rcs : list (option RequestConfig)) : list string :=
  omap (fmap rc_name) rcs.

(** The events the observers of a client add after a response. *)
Definition observerEvents (c : Client) (request : Request) (statusCode ms1 ms2 : Z)
    : list Event :=
  from_option
    (λ l, [EvLog l (req_ctx request) (fulfilled (req_name request) statusCode ms1)])
    [] (c_l c)
  ++ from_option
       (λ m, [EvMetric m (req_ctx request) (req_name request)
                {| Status := statusCode; LatencyInMillis := ms2 |}])
       [] (c_m c).

End Model.

(** ** A small instance of the imports, for the examples

    Dynamic values are integers, strings and tables. An integer casts to
    itself and prints in decimal; a table casts to no integer and to no
    string; the strings of the examples are not numerals and cast to no
    integer. URLs are kept as text. Header names are made canonical the way
    [net/textproto] does it for a name of token characters: the first
    letter and each letter after a hyphen in upper case, the others in
    lower case. The world is the clock and the results the engine will
    return, in order. *)

#[warnings="-register-all"]
Inductive value :=
  | VInt (n : Z)
  | VStr (s : string)
  | VMap (kvs : list (string * value)).

Definition demoTypes : GoTypes :=
  {| any := value; float64 := Z; URL := string; Reader := string;
     Response := Z; StatusCode := λ status, status;
     FallbackFunc := string; CheckRedirectFunc := string;
     OtherRoundTripper := string; Logger := string; Metrics := string;
     World := Z * list (option Z * option error) |}.

Definition uncastable (what : string) : error :=
  errors_New ("unable to cast value to " +:+ what).

Definition demo_ToIntE (v : value) : Z * option error :=
  match v with
  | VInt n => (n, None)
  | _ => (0, Some (uncastable "int"))
  end.

Definition demo_ToStringE (v : value) : string * option error :=
  match v with
  | VInt n => (pretty n, None)
  | VStr s => (s, None)
  | VMap _ => (""%string, Some (uncastable "string"))
  end.

Definition demo_ToStringMapE (v : value) : option (gmap string value) * option error :=
  match v with
  | VMap kvs => (Some (list_to_map kvs), None)
  | _ => (None, Some (uncastable "map[string]interface{}"))
  end.

Definition demo_assertString (v : value) : option string :=
  if v is VStr s then Some s else None.

Definition isLower (n : N) : bool := ((97 <=? n) && (n <=? 122))%N.
Definition isUpper (n : N) : bool := ((65 <=? n) && (n <=? 90))%N.
Definition isDigit (n : N) : bool := ((48 <=? n) && (n <=? 57))%N.

Definition isTokenChar (a : ascii) : bool :=
  let n := N_of_ascii a in
  isLower n || isUpper n || isDigit n
  || bool_decide (a ∈ String.list_ascii_of_string "!#$%&'*+-.^_`|~").

Definition toUpper (a : ascii) : ascii :=
  let n := N_of_ascii a in if isLower n then ascii_of_N (n - 32) else a.

Definition toLower (a : ascii) : ascii :=
  let n := N_of_ascii a in if isUpper n then ascii_of_N (n + 32) else a.

Fixpoint capitalise (upper : bool) (s : string) : string :=
  match s with
  | EmptyString => EmptyString
  | String a s' =>
      String (if upper then toUpper a else toLower a)
             (capitalise (bool_decide (a = "-"%char)) s')
  end.

Definition demo_CanonicalMIMEHeaderKey (s : string) : string :=
  if forallb isTokenChar (String.list_ascii_of_string s) then capitalise true s else s.

Definition demo_parseRequest (method url : string) : (string * string) + error :=
  if forallb isTokenChar (String.list_ascii_of_string method)
  then inl (if decide (method = ""%string) then "GET"%string else method, url)
  else inr (errors_New ("net/http: invalid method " +:+ method)).

Definition demo_addQuery (u : string) (q : gmap string string) : string :=
  foldl (λ acc kv, acc +:+ "&" +:+ kv.1 +:+ "=" +:+ kv.2) (u +:+ "?") (map_to_list q).

Definition demoLibs : @GoLibs demoTypes :=
  {| cast_ToIntE := demo_ToIntE : @any demoTypes → _;
     cast_ToFloat64E := demo_ToIntE : @any demoTypes → @float64 demoTypes * _;
     cast_ToStringE := demo_ToStringE : @any demoTypes → _;
     cast_ToStringMapE := demo_ToStringMapE : @any demoTypes → _;
     cast_ToStringMapString := λ m : option (gmap string (@any demoTypes)),
       (λ v, (demo_ToStringE v).1) <$> default ∅ m;
     float64_zero := 0 : @float64 demoTypes;
     assertString := demo_assertString : @any demoTypes → _;
     GOMAXPROCS := 8;
     url_Parse := inl : string → @URL demoTypes + error;
     http_parseRequest := demo_parseRequest : _ → _ → (_ * @URL demoTypes) + _;
     url_addQuery := demo_addQuery : @URL demoTypes → _;
     CanonicalMIMEHeaderKey := demo_CanonicalMIMEHeaderKey;
     rangeMap := map_to_list;
     rangeMap_perm := λ m, reflexivity (map_to_list m);
     uuid_source := λ n, "uuid-" +:+ pretty n;
     NewBackoffPolicy := λ _, None |}.

(** Reading the clock takes a microsecond; a call to the engine takes five
    milliseconds and returns the next scripted result, or fails when the
    script is over. *)
Definition demoRuntime : @GoRuntime demoTypes :=
  {| time_Now := (λ w, (w.1, (w.1 + 1000, w.2))) : @World demoTypes → _;
     heimdall_Do := (λ _ _ w,
       match w.2 with
       | r :: rest => (r, (w.1 + 5 * Millisecond, rest))
       | [] => ((None, Some (errors_New "connection refused")),
                (w.1 + 5 * Millisecond, []))
       end) : _ → _ → @World demoTypes → (option (@Response demoTypes) * _) * _ |}.

(** ** The data of the examples *)

Definition demoConfigMap : gmap string value :=
  list_to_map
    [("method", VStr "GET"); ("url", VStr "http://example.test");
     ("timeoutinmillis", VInt 5000); ("retrycount", VInt 3);
     ("headers", VMap [("source", VStr "internal"); ("limit", VInt 10)])]%string.

Definition demoSparseMap : gmap string value :=
  list_to_map
    [("timeoutinmillis", VInt 5000); ("retrycount", VMap []);
     ("hystrixconfig", VMap [("maxconcurrentrequests", VInt 10)])]%string.

Definition demoProfile : @RequestConfig demoTypes :=
  (NewRequestConfig (L := demoLibs) "test" (Some demoConfigMap) ∅).1.

Definition demoStore : gmap loc (gmap string string) :=
  (NewRequestConfig (L := demoLibs) "test" (Some demoConfigMap) ∅).2.

Definition demoClient : @Client demoTypes :=
  WithLogger (T := demoTypes) (Some "logger"%string)
    (ConfigureHTTPClient (L := demoLibs) [Some demoProfile]).

Definition demoState (script : list (option Z * option error)) : @State demoTypes :=
  {| maps := demoStore; uuids := 0; events := []; world := (0, script) : @World demoTypes |}.

(** A profile of its own name with both backoff configurations, as the
    configuration map of the README has them, and one with a breaker
    configuration besides. *)
Definition demoBackoffProfile : @RequestConfig demoTypes :=
  SetBackoffPolicy
    (Some {| constantBackoff :=
               Some {| interval := 2 * Millisecond;
                       cb_maximumJitterInterval := 5 * Millisecond |};
             exponentialBackoff :=
               Some {| initialTimeout := 2 * Millisecond;
                       maxTimeout := 10 * Millisecond;
                       exponentFactor := 2 : @float64 demoTypes;
                       eb_maximumJitterInterval := 2 * Millisecond |} |})
    (bareRequestConfig "backoff").

Definition demoBreakerProfile : @RequestConfig demoTypes :=
  SetHystrixConfig
    (Some (NewHystrixConfig (L := demoLibs)
             (Some (list_to_map [("maxconcurrentrequests"%string, VInt 10)]))))
    (SetName "breaker" demoBackoffProfile).

(** A call whose own header table names the correlation header in lower
    case. *)
Definition demoLowerCaseStore : gmap loc (gmap string string) :=
  <[2%positive := {["x-requestid"%string := "abc"%string]}]> demoStore.

Definition demoLowerCaseCall : @Request demoTypes :=
  with_headerParams (Some 2%positive) (NewRequest "test").

Definition demoLowerCaseState : @State demoTypes :=
  {| maps := demoLowerCaseStore; uuids := 0; events := [];
     world := (0, [(Some 200, None)]) : @World demoTypes |}.

Definition demoSetters : list (@Setter demoTypes) :=
  [@CallWithLogger demoTypes None;
   @CallWithMetrics demoTypes (Some "sink"%string);
   @CallWithLogger demoTypes (Some "first"%string);
   @CallWithLogger demoTypes (Some "second"%string)].

Definition demoRun (request : @Request demoTypes) (σ : @State demoTypes) :=
  Client_Request (L := demoLibs) (R := demoRuntime) demoClient request σ.

(** What the dispatch of a new call named "test" does when the engine
    answers 200: the engine of the profile, the wire request it is given
    and the line the logger gets. *)
Definition demoEngine : @heimdall_Client demoTypes :=
  buildHTTPClient (L := demoLibs) demoProfile.

Definition demoHeaders : gmap string string :=
  {[ "source" := "internal"; "limit" := "10" ]}%string.

Definition demoWire (id : string) : @http_Request demoTypes :=
  {| Method := "GET"; URL_ := "http://example.test"%string : @URL demoTypes;
     Header := wireHeader (L := demoLibs) (<[requestIDHeader := id]> demoHeaders);
     Body := None; ctx_ := None |}.

Definition demoLogged : list (@Event demoTypes) :=
  [EvLog ("logger"%string : @Logger demoTypes) None
     "Fulfilled http request test with status 200 in duration 5 ms"].

(** A map whose only key is spelt as in a YAML file, and a breaker table
    with a misspelt key. *)
Definition demoCamelCaseMap : gmap string value :=
  {[ "timeoutInMillis"%string := VInt 1000 ]}.

Definition demoMisspeltBreaker : gmap string value :=
  {[ "errorPercentThresold"%string := VInt 20 ]}.

(** The profile of the README, made without a map. *)
Definition demoApiProfile : @RequestConfig demoTypes :=
  SetURL "http://google.com"
    (SetMethod "GET" (SetRetryCount 3 (SetTimeout 1000 (bareRequestConfig "test")))).

Definition demoTransport : @Transport demoTypes :=
  transportFor (L := demoLibs) demoProfile None.

Definition demoProxy : string := "http://proxy.test:8080".

Definition demoBadCall : @Request demoTypes :=
  with_method "BAD METHOD" (NewRequest "test").

Definition demoTimeout : error := errors_New "context deadline exceeded".

(** A call to a name that is not registered, with a method, a URL and a
    header mapping of its own; the method is not a valid one. *)
Definition demoUnknownBadCall : @Request demoTypes :=
  with_headerParams (Some 2%positive)
    (with_url "http://example.test" (with_method "BAD METHOD" (NewRequest "nowhere"))).

Ltac split_results :=
  repeat match goal with
         | |- context [let '(_, _) := ?e in _] => destruct e as [? ?] eqn:?
         end.

(** * Properties *)

(** ** Resolving a configuration map *)

Section Configuration.
Context {T : GoTypes} {L : GoLibs}.

Implicit Types (options configMap : option (gmap string any)) (key : string).

Lemma getConfigOptionInt_missing options key :
  mapIndex options key = None →
  getConfigOptionInt options key = (0, Some (missing key)).
Proof. unfold getConfigOptionInt. by intros ->. Qed.

Lemma getConfigOptionInt_present options key val :
  mapIndex options key = Some val →
  getConfigOptionInt options key = cast_ToIntE val.
Proof. unfold getConfigOptionInt. by intros ->. Qed.

Lemma getConfigOptionMap_present options key val :
  mapIndex options key = Some val →
  getConfigOptionMap options key = cast_ToStringMapE val.
Proof. unfold getConfigOptionMap. by intros ->. Qed.

Lemma unresolvedInt_error options key :
  unresolvedInt options key → ∃ err, (getConfigOptionInt options key).2 = Some err.
Proof.
  intros [Hnone | (val & err & Hval & Herr)].
  - rewrite getConfigOptionInt_missing by done. eauto.
  - rewrite (getConfigOptionInt_present _ _ val) by done. eauto.
Qed.

Lemma NewRequestConfig_retryCount name (m : gmap string any) maps :
  rc_retryCount (NewRequestConfig name (Some m) maps).1 =
    let '(n, err) := getConfigOptionInt (Some m) "retrycount" in
    if err is None then n else 1.
Proof. unfold NewRequestConfig. split_results. done. Qed.

Lemma NewRequestConfig_timeout name (m : gmap string any) maps :
  rc_timeout (NewRequestConfig name (Some m) maps).1 =
    let '(n, err) := getConfigOptionInt (Some m) "timeoutinmillis" in
    if err is None then millis n else 0.
Proof. unfold NewRequestConfig. split_results. done. Qed.

Lemma NewRequestConfig_connectTimeout name (m : gmap string any) maps :
  rc_connectTimeout (NewRequestConfig name (Some m) maps).1 =
    let '(n, err) := getConfigOptionInt (Some m) "connecttimeoutinmillis" in
    if err is None then millis n
    else rc_timeout (NewRequestConfig name (Some m) maps).1 `quot` 10.
Proof. unfold NewRequestConfig. split_results. done. Qed.

Lemma NewRequestConfig_keepAlive name (m : gmap string any) maps :
  rc_keepAlive (NewRequestConfig name (Some m) maps).1 =
    let '(n, err) := getConfigOptionInt (Some m) "keepaliveinmillis" in
    if err is None then millis n else defaultKeepAlive.
Proof. unfold NewRequestConfig. split_results. done. Qed.

Lemma NewRequestConfig_idleConnectionTimeout name (m : gmap string any) maps :
  rc_idleConnectionTimeout (NewRequestConfig name (Some m) maps).1 =
    let '(n, err) := getConfigOptionInt (Some m) "idleconnectiontimeoutinmillis" in
    if err is None then millis n else defaultIdleConnectionTimeout.
Proof. unfold NewRequestConfig. split_results. done. Qed.

Lemma NewRequestConfig_hystrixConfig name (m : gmap string any) maps :
  rc_hystrixConfig (NewRequestConfig name (Some m) maps).1 =
    let '(sub, err) := getConfigOptionMap (Some m) "hystrixconfig" in
    if err is None then Some (NewHystrixConfig sub) else None.
Proof. unfold NewRequestConfig. split_results. done. Qed.

Lemma NewHystrixConfig_sleepWindow configMap :
  sleepWindowInMillis (NewHystrixConfig configMap) =
    let '(n, err) := getConfigOptionInt configMap "sleepwindowinmillis" in
    if err is None then n else defaultSleepWindowInMillis.
Proof. unfold NewHystrixConfig. split_results. done. Qed.

(** C6. Defaults of construction from a non-nil configuration map: a
    [retrycount] that is missing or does not cast resolves to 1; a missing
    [connecttimeoutinmillis] to a tenth of the resolved request timeout; a
    missing [keepaliveinmillis] to 30 seconds; a missing
    [idleconnectiontimeoutinmillis] to 90 seconds; and a breaker
    configuration, built alone or as the [hystrixconfig] table of the
    profile, has a sleep window of 5000 milliseconds when
    [sleepwindowinmillis] is missing. *)
Theorem construction_defaults name (m : gmap string any) maps :
  let rc := (NewRequestConfig name (Some m) maps).1 in
  (unresolvedInt (Some m) "retrycount" → rc_retryCount rc = 1)
  ∧ (m !! "connecttimeoutinmillis" = None →
     rc_connectTimeout rc = rc_timeout rc `quot` 10)
  ∧ (m !! "keepaliveinmillis" = None → rc_keepAlive rc = 30 * Second)
  ∧ (m !! "idleconnectiontimeoutinmillis" = None →
     rc_idleConnectionTimeout rc = 90 * Second)
  ∧ (∀ configMap,
       mapIndex configMap "sleepwindowinmillis" = None →
       sleepWindowInMillis (NewHystrixConfig configMap) = 5000)
  ∧ (∀ val sub,
       m !! "hystrixconfig" = Some val →
       cast_ToStringMapE val = (sub, None) →
       mapIndex sub "sleepwindowinmillis" = None →
       ∃ hc, rc_hystrixConfig rc = Some hc ∧ sleepWindowInMillis hc = 5000).
Proof.
  assert (Hsleep : ∀ configMap,
    mapIndex configMap "sleepwindowinmillis" = None →
    sleepWindowInMillis (NewHystrixConfig configMap) = 5000).
  { intros configMap Hnone. rewrite NewHystrixConfig_sleepWindow.
    by rewrite getConfigOptionInt_missing. }
  cbv zeta. split_and!.
  - intros [err Herr]%unresolvedInt_error.
    rewrite NewRequestConfig_retryCount.
    destruct (getConfigOptionInt _ _) as [n e]. simpl in Herr. by subst e.
  - intros Hnone. rewrite NewRequestConfig_connectTimeout.
    by rewrite getConfigOptionInt_missing.
  - intros Hnone. rewrite NewRequestConfig_keepAlive.
    by rewrite getConfigOptionInt_missing.
  - intros Hnone. rewrite NewRequestConfig_idleConnectionTimeout.
    by rewrite getConfigOptionInt_missing.
  - exact Hsleep.
  - intros val sub Hval Hcast Hnone. exists (NewHystrixConfig sub). split.
    + rewrite NewRequestConfig_hystrixConfig.
      rewrite (getConfigOptionMap_present _ _ val) by done. by rewrite Hcast.
    + by apply Hsleep.
Qed.

End Configuration.

(** ** Engines and the registry *)

Section Engines.
Context {T : GoTypes} {L : GoLibs}.

Implicit Types (rc : RequestConfig) (rcs : list (option RequestConfig)).

(** C2. The retrier of a profile goes by which backoff configurations are
    present, the constant one first: with a constant configuration the
    retrier is the constant backoff with jitter, whether or not an
    exponential one is present too; with an exponential configuration only,
    the exponential backoff with jitter; with neither, the retrier that
    does not back off. The engine built for the profile carries that
    retrier. *)
Theorem retrier_selection rc :
  (∀ bp cb,
     rc_backoffPolicy rc = Some bp → constantBackoff bp = Some cb →
     getRetrier rc =
       NewRetrier (NewConstantBackoff (interval cb) (cb_maximumJitterInterval cb)))
  ∧ (∀ bp eb,
       rc_backoffPolicy rc = Some bp → constantBackoff bp = None →
       exponentialBackoff bp = Some eb →
       getRetrier rc =
         NewRetrier (NewExponentialBackoff (initialTimeout eb) (maxTimeout eb)
                       (exponentFactor eb) (eb_maximumJitterInterval eb)))
  ∧ ((rc_backoffPolicy rc = None
      ∨ ∃ bp, rc_backoffPolicy rc = Some bp ∧ constantBackoff bp = None
              ∧ exponentialBackoff bp = None) →
     getRetrier rc = NewNoRetrier)
  ∧ retrierOf (buildHTTPClient rc) = getRetrier rc.
Proof.
  unfold getRetrier, buildHTTPClient. split_and!.
  - intros [cb' eb'] cb -> [= ->]. done.
  - intros [cb' eb'] eb -> [= ->] [= ->]. done.
  - intros [-> | ([cb' eb'] & -> & [= ->] & [= ->])]; done.
  - by destruct (rc_hystrixConfig rc).
Qed.

Lemma kindOf_buildHTTPClient rc :
  kindOf (buildHTTPClient rc) =
    if rc_hystrixConfig rc is Some _ then Breaker (rc_name rc) else PlainRetry.
Proof. unfold buildHTTPClient. by destruct (rc_hystrixConfig rc). Qed.

Lemma foldl_register_lookup rcs (m0 : gmap string ClientRequestMapping) name :
  foldl register m0 rcs !! name =
    match lastNamed name rcs with
    | Some rc => Some (entryOf rc)
    | None => m0 !! name
    end.
Proof.
  revert m0. induction rcs as [|x rcs IH]; intros m0; simpl; [done|].
  rewrite IH. destruct (lastNamed name rcs) as [rc|]; [done|].
  destruct x as [rc|]; simpl; [|done].
  destruct (decide (rc_name rc = name)) as [<-|Hne].
  - by rewrite lookup_insert_eq.
  - by rewrite lookup_insert_ne.
Qed.

Lemma lastNamed_elem name rcs rc :
  lastNamed name rcs = Some rc → Some rc ∈ rcs ∧ rc_name rc = name.
Proof.
  induction rcs as [|x rcs IH]; simpl; [done|].
  destruct (lastNamed name rcs) as [rc'|].
  - intros [= ->]. destruct IH as [? ?]; [done|]. split; [by right | done].
  - destruct x as [rc'|]; [|done].
    destruct (decide (rc_name rc' = name)); [|done].
    intros [= ->]. split; [by left | done].
Qed.

Lemma lastNamed_is_Some rcs rc :
  Some rc ∈ rcs → is_Some (lastNamed (rc_name rc) rcs).
Proof.
  induction rcs as [|x rcs IH]; [by intros ?%elem_of_nil|].
  intros [<-|Hin]%elem_of_cons; simpl.
  - destruct (lastNamed _ rcs); [done|]. by rewrite decide_True.
  - destruct (IH Hin) as [rc' ->]. done.
Qed.

Lemma lastNamed_last name pre rc post :
  rc_name rc = name →
  (∀ rc', Some rc' ∈ post → rc_name rc' ≠ name) →
  lastNamed name (pre ++ Some rc :: post) = Some rc.
Proof.
  intros Hname Hpost.
  assert (Hnone : lastNamed name post = None).
  { destruct (lastNamed name post) as [rc'|] eqn:Hlast; [|done].
    apply lastNamed_elem in Hlast as [Hin Hn]. by destruct (Hpost rc' Hin). }
  induction pre as [|x pre IH]; simpl.
  - rewrite Hnone. by rewrite decide_True.
  - by rewrite IH.
Qed.

(** C3. For every non-nil profile handed to [ConfigureHTTPClient], the
    registry has an entry under the profile's name. The entry pairs a
    profile of that name from the list (the profile itself when no later
    one has the same name) with the engine built from it, and the kind of
    that engine goes by the presence of the breaker configuration alone:
    the plain retrying client without one, the hystrix client with the
    profile's name as command name with one. Two profiles of one name that
    agree on the presence of a breaker configuration get the same kind of
    engine, whatever the thresholds. *)
Theorem engine_by_breaker_presence rcs rc :
  Some rc ∈ rcs →
  (∃ rc',
      Some rc' ∈ rcs ∧ rc_name rc' = rc_name rc
      ∧ httpClients (ConfigureHTTPClient rcs) !! rc_name rc = Some (entryOf rc')
      ∧ kindOf (buildHTTPClient rc') =
          (if rc_hystrixConfig rc' is Some _ then Breaker (rc_name rc) else PlainRetry)
      ∧ (∀ pre post,
           rcs = pre ++ Some rc :: post →
           (∀ rc2, Some rc2 ∈ post → rc_name rc2 ≠ rc_name rc) →
           rc' = rc))
  ∧ (∀ rc2,
       rc_name rc2 = rc_name rc →
       (is_Some (rc_hystrixConfig rc2) ↔ is_Some (rc_hystrixConfig rc)) →
       kindOf (buildHTTPClient rc2) = kindOf (buildHTTPClient rc)).
Proof.
  intros Hin. split.
  - destruct (lastNamed_is_Some _ _ Hin) as [rc' Hlast].
    destruct (lastNamed_elem _ _ _ Hlast) as [Hin' Hname].
    exists rc'. split_and!; [done..| | |].
    + simpl. by rewrite foldl_register_lookup, Hlast.
    + by rewrite kindOf_buildHTTPClient, Hname.
    + intros pre post -> Hpost.
      rewrite (lastNamed_last (rc_name rc) pre rc post) in Hlast by done.
      by injection Hlast.
  - intros rc2 Hname Hpresence. rewrite !kindOf_buildHTTPClient, Hname.
    destruct (rc_hystrixConfig rc2), (rc_hystrixConfig rc); try done.
    + destruct Hpresence as [[? [=]] _]. eauto.
    + destruct Hpresence as [_ [? [=]]]. eauto.
Qed.

Lemma ConfigureHTTPClient_consistent rcs : once_consistent (ConfigureHTTPClient rcs).
Proof. split; simpl; (split; [done | by intros [? ?]]). Qed.

Lemma call_consistent c k : once_consistent c → once_consistent (call c k).
Proof.
  intros Hc. destruct k as [[l|]|[m|]]; simpl; [| exact Hc | | exact Hc].
  - destruct (c_ol c) eqn:Hol; [exact Hc|]. destruct Hc as [_ Hm].
    split; simpl; [|exact Hm]. split; [eauto | done].
  - destruct (c_om c) eqn:Hom; [exact Hc|]. destruct Hc as [Hl _].
    split; simpl; [exact Hl|]. split; [eauto | done].
Qed.

Lemma calls_fold ks c :
  once_consistent c →
  let c' := foldl call c ks in
  once_consistent c'
  ∧ c_l c' = (if c_l c is Some l then Some l else firstLogger ks)
  ∧ c_m c' = (if c_m c is Some m then Some m else firstMetrics ks)
  ∧ httpClients c' = httpClients c.
Proof.
  revert c. induction ks as [|k ks IH]; intros c Hc; simpl.
  { split_and!; [done | by destruct (c_l c) | by destruct (c_m c) | done]. }
  destruct (IH (call c k) (call_consistent _ k Hc)) as (Hc' & Hl & Hm & Hh).
  split_and!; [done | rewrite Hl | rewrite Hm | rewrite Hh]; clear IH Hl Hm Hh Hc'.
  - destruct Hc as [[Hol1 Hol2] _]. unfold firstLogger.
    destruct k as [[l|]|[m|]]; simpl.
    + destruct (c_ol c) eqn:Hol; simpl.
      * destruct Hol1 as [l' ->]; done.
      * destruct (c_l c) as [l'|]; [|done].
        assert (false = true) by (apply Hol2; eauto). done.
    + done.
    + by destruct (c_om c).
    + done.
  - destruct Hc as [_ [Hom1 Hom2]]. unfold firstMetrics.
    destruct k as [[l|]|[m|]]; simpl.
    + by destruct (c_ol c).
    + done.
    + destruct (c_om c) eqn:Hom; simpl.
      * destruct Hom1 as [m' ->]; done.
      * destruct (c_m c) as [m'|]; [|done].
        assert (false = true) by (apply Hom2; eauto). done.
    + done.
  - destruct k as [[l|]|[m|]]; simpl; try done.
    + by destruct (c_ol c).
    + by destruct (c_om c).
Qed.


(** C10. On a client made by [ConfigureHTTPClient] and taken through any
    sequence of [WithLogger] and [WithMetrics] calls: the logger it holds
    is the first non-nil logger of the sequence and the metrics sink the
    first non-nil sink (none if there was none), and the registry is
    untouched. A nil argument leaves the client exactly as it was, so it
    does not use up the one-time set: while no logger is held the next
    non-nil logger is installed. Once a logger is held every further
    [WithLogger] is a no-op. The same holds for metrics, and neither call
    changes the other slot. *)
Theorem observers_set_once rcs (ks : list Setter) :
  let c := foldl call (ConfigureHTTPClient rcs) ks in
  (c_l c = firstLogger ks ∧ c_m c = firstMetrics ks
   ∧ httpClients c = httpClients (ConfigureHTTPClient rcs))
  ∧ (WithLogger None c = c ∧ WithMetrics None c = c)
  ∧ (∀ l, c_l c = None → c_l (WithLogger (Some l) c) = Some l)
  ∧ (∀ m, c_m c = None → c_m (WithMetrics (Some m) c) = Some m)
  ∧ (∀ l, is_Some (c_l c) → WithLogger l c = c)
  ∧ (∀ m, is_Some (c_m c) → WithMetrics m c = c)
  ∧ (∀ l m, c_m (WithLogger l c) = c_m c ∧ c_l (WithMetrics m c) = c_l c).
Proof.
  destruct (calls_fold ks _ (ConfigureHTTPClient_consistent rcs))
    as ([[Hol1 Hol2] [Hom1 Hom2]] & Hl & Hm & Hh).
  simpl in Hl, Hm. cbv zeta. split_and!; try done.
  - intros l Hnone. simpl. destruct (c_ol _) eqn:Hol; [|done].
    destruct Hol1 as [? Hsome]; [done|]. congruence.
  - intros m Hnone. simpl. destruct (c_om _) eqn:Hom; [|done].
    destruct Hom1 as [? Hsome]; [done|]. congruence.
  - intros [l|] Hsome; [|done]. simpl. by rewrite (Hol2 Hsome).
  - intros [m|] Hsome; [|done]. simpl. by rewrite (Hom2 Hsome).
  - intros [l|] [m|]; simpl; split; try done;
      by repeat match goal with |- context [if ?b then _ else _] => destruct b end.
Qed.

End Engines.

(** ** Dispatch *)

Section Dispatch.
Context {T : GoTypes} {L : GoLibs} {R : GoRuntime}.

Implicit Types (c : Client) (request : Request) (σ : State) (rc : RequestConfig).
Implicit Types (tbl : gmap string string) (ctx : Context).

Lemma contextID_getRequestID ctx σ :
  getRequestID ctx σ =
    (requestID ctx (uuids σ),
     if contextID ctx is Some _ then σ else (uuid_NewString σ).2).
Proof.
  unfold getRequestID, requestID, contextID.
  destruct ctx as [values|]; simpl; [|done].
  destruct (values !! idParam) as [id|]; simpl; [|done].
  by destruct (assertString id).
Qed.

Lemma getRequestID_frame ctx σ :
  let σ' := (getRequestID ctx σ).2 in
  maps σ' = maps σ ∧ events σ' = events σ ∧ world σ' = world σ
  ∧ uuids σ' = (if contextID ctx is Some _ then uuids σ else S (uuids σ)).
Proof. rewrite contextID_getRequestID. by destruct (contextID ctx). Qed.

Lemma SetHeaderParam_frame param value request σ :
  let r' := (SetHeaderParam param value request σ).1 in
  let σ' := (SetHeaderParam param value request σ).2 in
  events σ' = events σ ∧ world σ' = world σ ∧ uuids σ' = uuids σ
  ∧ with_headerParams (req_headerParams request) r' = request.
Proof.
  unfold SetHeaderParam. destruct request as [? ? ? ? ? [p|] ?]; simpl; done.
Qed.

(** The table the header is written to: the call's own when it has one, a
    new one otherwise; every other table is left alone. *)
Lemma SetHeaderParam_table param value request σ :
  let r' := (SetHeaderParam param value request σ).1 in
  let σ' := (SetHeaderParam param value request σ).2 in
  ∃ p, req_headerParams r' = Some p
    ∧ (if req_headerParams request is Some q then p = q else maps σ !! p = None)
    ∧ maps σ' !! p = Some (<[param := value]> (default ∅ (maps σ !! p)))
    ∧ ∀ q, q ≠ p → maps σ' !! q = maps σ !! q.
Proof.
  unfold SetHeaderParam. destruct (req_headerParams request) as [p|] eqn:Hp; simpl.
  - exists p. rewrite Hp. split_and!; [done.. | by rewrite lookup_insert_eq |].
    intros q Hq. by rewrite lookup_insert_ne.
  - exists (fresh (dom (maps σ))).
    assert (maps σ !! fresh (dom (maps σ)) = None) as Hfresh.
    { apply not_elem_of_dom, is_fresh. }
    split_and!; [done.. | |].
    + rewrite lookup_insert_eq, Hfresh. simpl. by rewrite insert_empty.
    + intros q Hq. by rewrite lookup_insert_ne.
Qed.

Lemma now_frame σ :
  maps (now σ).2 = maps σ ∧ events (now σ).2 = events σ ∧ uuids (now σ).2 = uuids σ.
Proof. unfold now. by destruct (time_Now (world σ)). Qed.

Lemma observers_frame c request start statusCode σ :
  let σ' := metricLatencyAndStatusCode c request start statusCode
              (logLatencyAndStatusCode c request start statusCode σ) in
  maps σ' = maps σ ∧ uuids σ' = uuids σ
  ∧ ∃ tail, events σ' = events σ ++ tail ∧ Forall isObserver tail.
Proof.
  unfold metricLatencyAndStatusCode, logLatencyAndStatusCode, now.
  destruct (c_l c) as [l|], (c_m c) as [m|]; simpl;
    repeat (destruct (time_Now _) as [? ?]; simpl);
    (split_and!; [done.. |]).
  - eexists [_; _]. rewrite <- app_assoc. split; [done|]. by repeat constructor.
  - eexists [_]. split; [done|]. by repeat constructor.
  - eexists [_]. split; [done|]. by repeat constructor.
  - exists []. by rewrite app_nil_r.
Qed.

Lemma deref_maps σ σ' (p : option loc) : maps σ' = maps σ → deref σ' p = deref σ p.
Proof. unfold deref. by intros ->. Qed.

Lemma fillDefaults_registered rc engine request :
  fillDefaults {| heimdallClient := engine; requestConfig := Some rc |} request
  = Some (defaulted rc request).
Proof.
  unfold fillDefaults, defaulted.
  destruct request as [name ctx method url q h body]; simpl.
  destruct (decide (method = ""%string)), (decide (url = ""%string)), h; simpl.
  all: repeat case_decide; done.
Qed.

Lemma fillDefaults_unregistered request r1 :
  fillDefaults noMapping request = Some r1 → r1 = request.
Proof.
  unfold fillDefaults. simpl.
  destruct (decide (req_method request = ""%string)); simpl; [done|].
  destruct (decide (req_url request = ""%string)); simpl; [done|].
  destruct (req_headerParams request); simpl; [|done]. by intros [= <-].
Qed.

(** The course of a dispatch, step by step. *)
Lemma Client_Request_spec c request σ :
  let client := default noMapping (httpClients c !! req_name request) in
  match fillDefaults client request with
  | None => Client_Request c request σ = (Panicked nilDereference, request, σ)
  | Some r1 =>
    let id := requestID (req_ctx r1) (uuids σ) in
    let σ1 := (getRequestID (req_ctx r1) σ).2 in
    let r2 := (SetHeaderParam requestIDHeader id r1 σ1).1 in
    let σ2 := (SetHeaderParam requestIDHeader id r1 σ1).2 in
    ∃ out σ',
      Client_Request c request σ = (out, r2, σ')
      ∧ maps σ' = maps σ2 ∧ uuids σ' = uuids σ2
      ∧ match getRequest (req_ctx r2) (req_method r2) (req_url r2)
                (deref σ2 (req_queryParams r2)) (deref σ2 (req_headerParams r2))
                (req_body r2) with
        | inr e => out = Returned (None, Some e) ∧ events σ' = events σ
        | inl req =>
          match heimdallClient client with
          | None => out = Panicked nilDereference ∧ events σ' = events σ
          | Some engine =>
            ∃ response err tail,
              events σ' = events σ ++ EvDo engine req response err :: tail
              ∧ Forall isObserver tail
              ∧ out = match err, response with
                      | None, None => Returned (None, Some unableToFetch)
                      | _, _ => Returned (response, err)
                      end
              ∧ (err ≠ None ∨ response = None → tail = [])
          end
        end
  end.
Proof.
  cbv zeta. unfold Client_Request.
  destruct (fillDefaults _ request) as [r1|]; [|done].
  rewrite contextID_getRequestID. cbn [snd].
  set (id := requestID (req_ctx r1) (uuids σ)).
  set (σ1 := if contextID (req_ctx r1) is Some _ then σ else (uuid_NewString σ).2).
  assert (events σ1 = events σ) as Hev1.
  { subst σ1. by destruct (contextID _). }
  destruct (SetHeaderParam_frame requestIDHeader id r1 σ1) as (Hev2 & _ & _ & _).
  destruct (SetHeaderParam requestIDHeader id r1 σ1) as [r2 σ2]. cbn [fst snd] in *.
  destruct (now_frame σ2) as (Hm3 & Hev3 & Hu3).
  destruct (now σ2) as [start σ3]. cbn [fst snd] in *.
  rewrite !(deref_maps σ2 σ3) by done.
  destruct (getRequest _ _ _ _ _ _) as [req|e].
  2:{ eexists _, _. split; [done|]. split_and!; [done..|]. congruence. }
  destruct (heimdallClient _) as [engine|].
  2:{ eexists _, _. split; [done|]. split_and!; [done..|]. congruence. }
  destruct (heimdall_Do engine req (world σ3)) as [[response err] w].
  set (σ4 := emit _ _).
  assert (events σ4 = events σ ++ [EvDo engine req response err]) as Hev4.
  { subst σ4. simpl. congruence. }
  assert (maps σ4 = maps σ2 ∧ uuids σ4 = uuids σ2) as [Hm4 Hu4] by done.
  clearbody σ4.
  destruct err as [e|].
  { eexists _, _. split; [done|]. split_and!; [done..|].
    exists response, (Some e), []. by rewrite Hev4. }
  destruct response as [resp|].
  2:{ eexists _, _. split; [done|]. split_and!; [done..|].
      exists None, None, []. by rewrite Hev4. }
  destruct (observers_frame c r2 start (StatusCode resp) σ4)
    as (Hm5 & Hu5 & tail & Hev5 & Htail).
  eexists _, _. split; [done|]. split_and!; [congruence..|].
  exists (Some resp), None, tail. split_and!; [|done|done|].
  - rewrite Hev5, Hev4, <- app_assoc. done.
  - intros [?|?]; done.
Qed.

(** No dispatch takes an identifier back: the generator only moves on. *)
Lemma Client_Request_uuids c request σ :
  (uuids σ ≤ uuids (Client_Request c request σ).2)%nat.
Proof.
  pose proof (Client_Request_spec c request σ) as Hspec. cbv zeta in Hspec.
  destruct (fillDefaults _ request) as [r1|]; [|by rewrite Hspec].
  destruct Hspec as (out & σ' & Hrun & _ & Hu & _). rewrite Hrun. simpl.
  destruct (SetHeaderParam_frame requestIDHeader
              (requestID (req_ctx r1) (uuids σ)) r1 (getRequestID (req_ctx r1) σ).2)
    as (_ & _ & Hu2 & _).
  destruct (getRequestID_frame (req_ctx r1) σ) as (_ & _ & _ & Hu1).
  rewrite Hu, Hu2, Hu1. destruct (contextID (req_ctx r1)); lia.
Qed.

(** *** The wire header *)

Lemma valuesOf_Header_Add h k v key :
  valuesOf (Header_Add h k v) key = valuesOf h key ++ from_option (λ x, [x]) [] (pick key (k, v)).
Proof.
  unfold valuesOf, Header_Add, pick. simpl.
  destruct (decide (CanonicalMIMEHeaderKey k = key)) as [<-|Hne]; simpl.
  - by rewrite lookup_insert_eq.
  - by rewrite lookup_insert_ne, app_nil_r.
Qed.

Lemma valuesOf_addHeaders kvs h key :
  valuesOf (addHeaders kvs h) key = valuesOf h key ++ omap (pick key) kvs.
Proof.
  revert h. induction kvs as [|[k v] kvs IH]; intros h; simpl.
  { by rewrite app_nil_r. }
  unfold addHeaders in *. simpl. rewrite IH, valuesOf_Header_Add, <- app_assoc.
  f_equal. by destruct (pick key (k, v)).
Qed.

Lemma valuesOf_wireHeader tbl key :
  valuesOf (wireHeader tbl) key ≡ₚ omap (pick key) (map_to_list tbl).
Proof.
  unfold wireHeader. rewrite valuesOf_addHeaders. unfold valuesOf at 1.
  rewrite lookup_empty. simpl. by rewrite rangeMap_perm.
Qed.

(** A value is on the wire under a name exactly when the table has it
    under a key with that canonical name. *)
Lemma wireHeader_elem tbl key v :
  v ∈ valuesOf (wireHeader tbl) key
  ↔ ∃ k, CanonicalMIMEHeaderKey k = key ∧ tbl !! k = Some v.
Proof.
  rewrite valuesOf_wireHeader, list_elem_of_omap. split.
  - intros ([k v'] & Hin%elem_of_map_to_list & Hpick). unfold pick in Hpick.
    simpl in Hpick. case_decide; [|done]. exists k. by simplify_eq.
  - intros (k & Hk & Hv). exists (k, v). split; [by apply elem_of_map_to_list|].
    unfold pick. simpl. by rewrite decide_True.
Qed.

(** A key whose canonical name no other key of the table shares is on the
    wire once. *)
Lemma wireHeader_once tbl k v :
  tbl !! k = Some v →
  (∀ k', is_Some (tbl !! k') → CanonicalMIMEHeaderKey k' = CanonicalMIMEHeaderKey k → k' = k) →
  wireHeader tbl !! CanonicalMIMEHeaderKey k = Some [v].
Proof.
  intros Hv Hothers.
  assert (valuesOf (wireHeader tbl) (CanonicalMIMEHeaderKey k) = [v]) as Hvals.
  { apply Permutation_singleton_r. rewrite valuesOf_wireHeader.
    rewrite <- (map_to_list_delete tbl k v) by done.
    set (key := CanonicalMIMEHeaderKey k).
    assert (omap (pick key) (map_to_list (delete k tbl)) = []) as Hnil; last first.
    { simpl. unfold pick at 1. simpl. rewrite decide_True by done.
      change (v :: omap (pick key) (map_to_list (delete k tbl)) ≡ₚ [v]).
      by rewrite Hnil. }
    destruct (omap _ _) as [|x l] eqn:Homap; [done|].
    assert (x ∈ omap (pick key) (map_to_list (delete k tbl)))
      as ([k' v'] & Hin%elem_of_map_to_list & Hpick)%list_elem_of_omap.
    { rewrite Homap. by left. }
    unfold pick in Hpick. simpl in Hpick. case_decide as Hcanon; [|done].
    apply lookup_delete_Some in Hin as [Hne Hin].
    destruct Hne. symmetry. apply Hothers; [by eauto | done]. }
  unfold valuesOf in Hvals. destruct (wireHeader tbl !! _) as [vs|]; simpl in *;
    by subst.
Qed.

(** *** A dispatch against a registered profile *)

Lemma dispatch_registered c request σ engine rc :
  httpClients c !! req_name request =
    Some {| heimdallClient := Some engine; requestConfig := Some rc |} →
  let r1 := defaulted rc request in
  let id := requestID (req_ctx request) (uuids σ) in
  ∃ out r' σ' p,
    Client_Request c request σ = (out, r', σ')
    ∧ with_headerParams (req_headerParams r1) r' = r1
    ∧ req_headerParams r' = Some p
    ∧ (if req_headerParams r1 is Some q then p = q else maps σ !! p = None)
    ∧ maps σ' !! p = Some (<[requestIDHeader := id]> (default ∅ (maps σ !! p)))
    ∧ (∀ q, q ≠ p → maps σ' !! q = maps σ !! q)
    ∧ uuids σ' = (if contextID (req_ctx request) is Some _ then uuids σ
                  else S (uuids σ))
    ∧ match http_parseRequest (req_method r1) (req_url r1) with
      | inr e => out = Returned (None, Some e) ∧ events σ' = events σ
      | inl (method, u) =>
        ∃ response err tail,
          events σ' =
            events σ ++
            EvDo engine
              {| Method := method;
                 URL_ := match deref σ' (req_queryParams r1) with
                         | Some q => url_addQuery u q
                         | None => u
                         end;
                 Header := wireHeader (<[requestIDHeader := id]>
                                          (default ∅ (maps σ !! p)));
                 Body := req_body r1;
                 ctx_ := req_ctx r1 |} response err :: tail
          ∧ Forall isObserver tail
          ∧ out = outcomeOf response err
          ∧ (err ≠ None ∨ response = None → tail = [])
      end.
Proof.
  intros Hentry r1 id.
  pose proof (Client_Request_spec c request σ) as Hspec. cbv zeta in Hspec.
  rewrite Hentry in Hspec. simpl in Hspec. rewrite fillDefaults_registered in Hspec.
  fold r1 in Hspec. change (req_ctx r1) with (req_ctx request) in Hspec. fold id in Hspec.
  destruct (getRequestID_frame (req_ctx request) σ) as (Hm1 & _ & _ & Hu1).
  set (σ1 := (getRequestID (req_ctx request) σ).2) in *.
  destruct (SetHeaderParam_frame requestIDHeader id r1 σ1) as (_ & _ & Hu2 & Hr2).
  destruct (SetHeaderParam_table requestIDHeader id r1 σ1)
    as (p & Hp & Hfresh & Htbl & Hrest).
  set (r2 := (SetHeaderParam requestIDHeader id r1 σ1).1) in *.
  set (σ2 := (SetHeaderParam requestIDHeader id r1 σ1).2) in *.
  destruct Hspec as (out & σ' & Hrun & Hm & Hu & Hcourse).
  rewrite Hm1 in Hfresh, Htbl, Hrest.
  exists out, r2, σ', p. split_and!; [done.. | by rewrite Hm | | congruence |].
  { intros q Hq. rewrite Hm. by apply Hrest. }
  assert (req_ctx r2 = req_ctx r1 ∧ req_method r2 = req_method r1
          ∧ req_url r2 = req_url r1 ∧ req_queryParams r2 = req_queryParams r1
          ∧ req_body r2 = req_body r1) as (Hc & Hme & Hur & Hq & Hb).
  { rewrite <- Hr2. by destruct r2. }
  rewrite Hc, Hme, Hur, Hq, Hb in Hcourse. clear Hc Hme Hur Hq Hb.
  unfold getRequest in Hcourse.
  destruct (http_parseRequest _ _) as [[method u]|e]; [|done].
  rewrite Hp in Hcourse. unfold deref at 2 in Hcourse. simpl in Hcourse.
  rewrite Htbl in Hcourse. simpl in Hcourse.
  rewrite (deref_maps σ2 σ') by done.
  destruct Hcourse as (response & err & tail & Hev & Htail & Hout & Hnone).
  exists response, err, tail. done.
Qed.

Lemma app_cons_inv {A} (l : list A) x1 l1 x2 l2 :
  l ++ x1 :: l1 = l ++ x2 :: l2 → x1 = x2 ∧ l1 = l2.
Proof. intros [= -> ->]%app_inv_head. done. Qed.

Lemma app_cons_not_nil {A} (l : list A) x l' : l ≠ l ++ x :: l'.
Proof.
  intros Heq. apply (f_equal length) in Heq. rewrite length_app in Heq.
  simpl in Heq. lia.
Qed.

(** C1, as the code has it. A dispatch that names a profile which is not
    registered never calls an engine or an observer, and returns no
    "unknown profile" error. When the call leaves its method, its URL or
    its header mapping to the profile, it panics on the nil profile and
    nothing has been written. When the call has all three, the wire
    request is built from them: if that fails, the dispatch returns the
    build error with no response; if it succeeds, the dispatch panics on
    the nil engine. *)
Theorem unregistered_dispatch c request σ :
  httpClients c !! req_name request = None →
  let out := (Client_Request c request σ).1.1 in
  let σ' := (Client_Request c request σ).2 in
  events σ' = events σ
  ∧ (out = Panicked nilDereference
     ∨ ∃ err, out = Returned (None, Some err)
              ∧ http_parseRequest (req_method request) (req_url request) = inr err)
  ∧ (req_method request = ""%string ∨ req_url request = ""%string
     ∨ req_headerParams request = None →
     Client_Request c request σ = (Panicked nilDereference, request, σ))
  ∧ (req_method request ≠ ""%string → req_url request ≠ ""%string →
     is_Some (req_headerParams request) →
     match http_parseRequest (req_method request) (req_url request) with
     | inr err => out = Returned (None, Some err)
     | inl _ => out = Panicked nilDereference
     end).
Proof.
  intros Hnone. pose proof (Client_Request_spec c request σ) as Hspec.
  cbv zeta in Hspec. rewrite Hnone in Hspec. simpl in Hspec. cbv zeta.
  assert (∀ r1, fillDefaults noMapping request = Some r1 →
    match http_parseRequest (req_method request) (req_url request) with
    | inr err => (Client_Request c request σ).1.1 = Returned (None, Some err)
    | inl _ => (Client_Request c request σ).1.1 = Panicked nilDereference
    end) as Hbuilt.
  { intros r1 Hfill. rewrite Hfill in Hspec.
    apply fillDefaults_unregistered in Hfill as ->.
    destruct Hspec as (out & σ' & -> & _ & _ & Hcourse). simpl.
    destruct (SetHeaderParam_frame requestIDHeader
                (requestID (req_ctx request) (uuids σ)) request
                (getRequestID (req_ctx request) σ).2) as (_ & _ & _ & Hr2).
    destruct (SetHeaderParam _ _ _ _) as [r2 σ2]. simpl in *.
    assert (req_method r2 = req_method request ∧ req_url r2 = req_url request)
      as [Hme Hur].
    { rewrite <- Hr2. by destruct r2. }
    unfold getRequest in Hcourse. rewrite Hme, Hur in Hcourse.
    destruct (http_parseRequest _ _) as [[method u]|e]; by destruct Hcourse. }
  split_and!.
  - destruct (fillDefaults noMapping request) as [r1|]; [|by rewrite Hspec].
    destruct Hspec as (out & σ' & -> & _ & _ & Hcourse). simpl.
    by destruct (getRequest _ _ _ _ _ _); destruct Hcourse.
  - destruct (fillDefaults noMapping request) as [r1|] eqn:Hfill;
      [|rewrite Hspec; by left].
    specialize (Hbuilt r1 eq_refl).
    destruct (http_parseRequest _ _) as [[method u]|e]; [by left|].
    right. by exists e.
  - intros Hempty.
    assert (fillDefaults noMapping request = None) as Hfill; [|by rewrite Hfill in Hspec].
    unfold fillDefaults. simpl.
    destruct (decide (req_method request = ""%string)); simpl; [done|].
    destruct (decide (req_url request = ""%string)); simpl; [done|].
    destruct (req_headerParams request); [|done].
    by destruct Hempty as [?|[?|?]].
  - intros Hmethod Hurl [p Hp]. apply (Hbuilt request).
    unfold fillDefaults. simpl.
    rewrite decide_False by done. simpl. rewrite decide_False by done. simpl.
    by rewrite Hp.
Qed.

(** C8. A dispatch in which the engine's [Do] returns a nil response with
    a nil error returns a nil response with the error "unable to fetch
    response", and the call to the engine is the last thing it does: no
    logger and no metrics sink is called. *)
Theorem no_response_is_an_error c request σ engine req tail :
  events (Client_Request c request σ).2 =
    events σ ++ EvDo engine req None None :: tail →
  (Client_Request c request σ).1.1 =
    Returned (None, Some (errors_New "unable to fetch response"))
  ∧ tail = [].
Proof.
  intros Hev. pose proof (Client_Request_spec c request σ) as Hspec.
  cbv zeta in Hspec.
  destruct (fillDefaults _ request) as [r1|].
  2:{ rewrite Hspec in Hev. simpl in Hev. by apply app_cons_not_nil in Hev. }
  destruct Hspec as (out & σ' & Hrun & _ & _ & Hcourse). rewrite Hrun in Hev |- *.
  simpl in Hev |- *.
  destruct (getRequest _ _ _ _ _ _) as [req'|e].
  2:{ destruct Hcourse as [_ Hsame]. rewrite Hsame in Hev.
      by apply app_cons_not_nil in Hev. }
  destruct (heimdallClient _) as [engine'|].
  2:{ destruct Hcourse as [_ Hsame]. rewrite Hsame in Hev.
      by apply app_cons_not_nil in Hev. }
  destruct Hcourse as (response & err & tail' & Hev' & _ & Hout & Hnil).
  rewrite Hev' in Hev. apply app_cons_inv in Hev as [[= -> -> -> ->] ->].
  split; [done | by apply Hnil; right].
Qed.

(** The wire request of a dispatch against a registered profile carries
    the header of the effective table: the one the call refers to, or the
    profile's, or none, with the identifier written under
    [requestIDHeader]. *)
Lemma dispatch_wire_header c request σ engine rc req response err tail :
  httpClients c !! req_name request =
    Some {| heimdallClient := Some engine; requestConfig := Some rc |} →
  events (Client_Request c request σ).2 =
    events σ ++ EvDo engine req response err :: tail →
  ∃ p, req_headerParams (Client_Request c request σ).1.2 = Some p
    ∧ (if req_headerParams (defaulted rc request) is Some q then p = q
       else maps σ !! p = None)
    ∧ maps (Client_Request c request σ).2 !! p =
        Some (<[requestIDHeader := requestID (req_ctx request) (uuids σ)]>
                (default ∅ (maps σ !! p)))
    ∧ Header req =
        wireHeader (<[requestIDHeader := requestID (req_ctx request) (uuids σ)]>
                      (default ∅ (maps σ !! p))).
Proof.
  intros Hentry Hev.
  destruct (dispatch_registered c request σ engine rc Hentry)
    as (out & r' & σ' & p & Hrun & _ & Hp & Hfresh & Htbl & _ & _ & Hcourse).
  rewrite Hrun in Hev |- *. simpl in Hev |- *.
  exists p. split_and!; [done..|].
  destruct (http_parseRequest _ _) as [[method u]|e].
  - destruct Hcourse as (response' & err' & tail' & Hev' & _).
    rewrite Hev' in Hev. by apply app_cons_inv in Hev as [[= <- _ _] _].
  - destruct Hcourse as [_ Hsame]. rewrite Hsame in Hev.
    by apply app_cons_not_nil in Hev.
Qed.


(** C5, as the code has it. On the wire request of a dispatch against a
    registered profile the correlation-id header is present, whatever the
    context, nil included, with the identifier of the dispatch among its
    values. The identifier is the string the context holds under the key
    [idParam] when it holds one, and then no identifier is generated;
    otherwise it is the next identifier of the generator, which moves on,
    so that no later dispatch gets the same one unless the generator
    repeats itself. The header has that identifier as its one value when no
    other key of the header mapping used has the canonical name of
    [requestIDHeader]. *)
Theorem correlation_header c request σ engine rc req response err tail :
  httpClients c !! req_name request =
    Some {| heimdallClient := Some engine; requestConfig := Some rc |} →
  events (Client_Request c request σ).2 =
    events σ ++ EvDo engine req response err :: tail →
  let id := requestID (req_ctx request) (uuids σ) in
  let r' := (Client_Request c request σ).1.2 in
  let σ' := (Client_Request c request σ).2 in
  id ∈ valuesOf (Header req) (CanonicalMIMEHeaderKey requestIDHeader)
  ∧ (∀ s, contextID (req_ctx request) = Some s → id = s ∧ uuids σ' = uuids σ)
  ∧ (contextID (req_ctx request) = None →
     id = uuid_source (uuids σ) ∧ uuids σ' = S (uuids σ)
     ∧ ∀ ctx2 n, Inj (=) (=) uuid_source → contextID ctx2 = None →
                 (uuids σ' ≤ n)%nat → requestID ctx2 n ≠ id)
  ∧ (req_ctx request = None → id = uuid_source (uuids σ))
  ∧ (∀ tbl, deref σ' (req_headerParams r') = Some tbl →
       (∀ k, is_Some (tbl !! k) →
             CanonicalMIMEHeaderKey k = CanonicalMIMEHeaderKey requestIDHeader →
             k = requestIDHeader) →
       Header req !! CanonicalMIMEHeaderKey requestIDHeader = Some [id]).
Proof.
  intros Hentry Hev id r' σ'.
  destruct (dispatch_wire_header _ _ _ _ _ _ _ _ _ Hentry Hev)
    as (p & Hp & _ & Htbl & Hreq).
  fold id in Htbl, Hreq. fold r' in Hp. fold σ' in Htbl.
  destruct (dispatch_registered c request σ engine rc Hentry)
    as (out & r0 & σ0 & _ & Hrun & _ & _ & _ & _ & _ & Hu & _).
  assert (uuids σ' = if contextID (req_ctx request) is Some _ then uuids σ
                     else S (uuids σ)) as Hu'.
  { subst σ'. by rewrite Hrun. }
  clear Hrun Hu. split_and!.
  - rewrite Hreq. apply wireHeader_elem. exists requestIDHeader.
    by rewrite lookup_insert_eq.
  - intros s Hs. rewrite Hs in Hu'. subst id. unfold requestID. by rewrite Hs.
  - intros Hnone. rewrite Hnone in Hu'.
    assert (id = uuid_source (uuids σ)) as Hid.
    { subst id. unfold requestID. by rewrite Hnone. }
    split_and!; [done..|].
    intros ctx2 n Hinj Hnone2 Hle. unfold requestID at 1. rewrite Hnone2, Hid.
    simpl. intros Heq%Hinj. lia.
  - intros Hnil. subst id. unfold requestID. by rewrite Hnil.
  - intros tbl Hderef Hothers. unfold deref in Hderef. rewrite Hp in Hderef.
    simpl in Hderef. rewrite Htbl in Hderef. injection Hderef as <-.
    rewrite Hreq. apply wireHeader_once; [by rewrite lookup_insert_eq | done].
Qed.

(** C7, as the code has it. A dispatch against a registered profile writes
    to the call: an empty method and an empty URL become the profile's, a
    nil header mapping becomes the profile's static header map, or a new
    map when the profile has none, and the correlation id is written into
    that header mapping. The name, the context, the body and the query
    mapping reference of the call are as before, and so is every table of
    the store other than the header mapping. *)
Theorem call_after_dispatch c request σ engine rc :
  httpClients c !! req_name request =
    Some {| heimdallClient := Some engine; requestConfig := Some rc |} →
  let id := requestID (req_ctx request) (uuids σ) in
  let r' := (Client_Request c request σ).1.2 in
  let σ' := (Client_Request c request σ).2 in
  (∃ res, (Client_Request c request σ).1.1 = Returned res)
  ∧ req_name r' = req_name request ∧ req_ctx r' = req_ctx request
  ∧ req_body r' = req_body request
  ∧ req_queryParams r' = req_queryParams request
  ∧ req_method r' = (if decide (req_method request = ""%string) then rc_method rc
                     else req_method request)
  ∧ req_url r' = (if decide (req_url request = ""%string) then rc_url rc
                  else req_url request)
  ∧ ∃ p, req_headerParams r' = Some p
      ∧ match req_headerParams request, rc_headers rc with
        | Some q, _ | None, Some q => p = q
        | None, None => maps σ !! p = None
        end
      ∧ maps σ' !! p = Some (<[requestIDHeader := id]> (default ∅ (maps σ !! p)))
      ∧ ∀ q, q ≠ p → maps σ' !! q = maps σ !! q.
Proof.
  intros Hentry id r' σ'.
  destruct (dispatch_registered c request σ engine rc Hentry)
    as (out & r0 & σ0 & p & Hrun & Hr' & Hp & Hfresh & Htbl & Hrest & _ & Hcourse).
  subst r' σ'. rewrite Hrun. simpl.
  assert (∃ res, out = Returned res) as Hreturned.
  { destruct (http_parseRequest _ _) as [[method u]|e].
    - destruct Hcourse as (response & err' & tail & _ & _ & -> & _).
      unfold outcomeOf. destruct err', response; eauto.
    - destruct Hcourse as [-> _]. eauto. }
  pose proof (f_equal req_name Hr') as Hname.
  pose proof (f_equal req_ctx Hr') as Hctx.
  pose proof (f_equal req_body Hr') as Hbody.
  pose proof (f_equal req_queryParams Hr') as Hquery.
  pose proof (f_equal req_method Hr') as Hmethod.
  pose proof (f_equal req_url Hr') as Hurl.
  simpl in Hname, Hctx, Hbody, Hquery, Hmethod, Hurl.
  split_and!; [done.. |].
  exists p. split_and!; [done | | done | done].
  unfold defaulted in Hfresh. simpl in Hfresh.
  by destruct (req_headerParams request), (rc_headers rc).
Qed.

(** C9. When a call with a nil header mapping is dispatched against a
    registered profile that has static headers, the call is given the
    profile's own map, not a copy, and the correlation id is written into
    it: after the dispatch the profile's static headers hold that
    identifier. A later call with a nil header mapping against the profile
    is given the same map and finds the identifier in it. *)
Theorem static_headers_shared c request σ engine rc p tbl :
  httpClients c !! req_name request =
    Some {| heimdallClient := Some engine; requestConfig := Some rc |} →
  req_headerParams request = None →
  rc_headers rc = Some p →
  maps σ !! p = Some tbl →
  let id := requestID (req_ctx request) (uuids σ) in
  let r' := (Client_Request c request σ).1.2 in
  let σ' := (Client_Request c request σ).2 in
  req_headerParams r' = rc_headers rc
  ∧ deref σ' (rc_headers rc) = Some (<[requestIDHeader := id]> tbl)
  ∧ ∀ request2,
      req_name request2 = req_name request →
      req_headerParams request2 = None →
      ∃ r2, fillDefaults (default noMapping (httpClients c !! req_name request2))
              request2 = Some r2
            ∧ req_headerParams r2 = Some p
            ∧ deref σ' (req_headerParams r2) ≫= (.!! requestIDHeader) = Some id.
Proof.
  intros Hentry Hnil Hp Htbl id r' σ'.
  destruct (dispatch_registered c request σ engine rc Hentry)
    as (out & r0 & σ0 & q & Hrun & _ & Hq & Hfresh & Htbl' & _).
  subst r' σ'. rewrite Hrun. simpl.
  unfold defaulted in Hfresh. simpl in Hfresh. rewrite Hnil, Hp in Hfresh.
  subst q. rewrite Htbl in Htbl'. simpl in Htbl'. fold id in Htbl'.
  assert (deref σ0 (Some p) = Some (<[requestIDHeader := id]> tbl)) as Hderef.
  { unfold deref. simpl. done. }
  split_and!; [by rewrite Hp, Hq | by rewrite Hp |].
  intros request2 Hname2 Hnil2. rewrite Hname2, Hentry. simpl.
  rewrite fillDefaults_registered. eexists. split; [done|].
  unfold defaulted. simpl. rewrite Hnil2, Hp. split; [done|].
  rewrite Hderef. simpl. by rewrite lookup_insert_eq.
Qed.

End Dispatch.

(** * Examples *)

(** The defaults on a map with a timeout, a [retrycount] that is a table
    and a breaker table without a sleep window. *)
Lemma construction_defaults_witness :
  let rc := (NewRequestConfig (L := demoLibs) "sparse" (Some demoSparseMap) ∅).1 in
  rc_retryCount rc = 1
  ∧ rc_connectTimeout rc = 500 * Millisecond
  ∧ rc_keepAlive rc = 30 * Second
  ∧ rc_idleConnectionTimeout rc = 90 * Second
  ∧ sleepWindowInMillis <$> rc_hystrixConfig rc = Some 5000.
Proof.
  destruct (construction_defaults (L := demoLibs) "sparse" demoSparseMap ∅)
    as (Hretry & Hconnect & Hkeep & Hidle & _ & Hsleep).
  cbv zeta. split_and!.
  - apply Hretry. right. exists (VMap []), (uncastable "int").
    split; vm_compute; reflexivity.
  - etrans; [apply Hconnect|]; vm_compute; reflexivity.
  - apply Hkeep. vm_compute. reflexivity.
  - apply Hidle. vm_compute. reflexivity.
  - destruct (Hsleep (VMap [("maxconcurrentrequests"%string, VInt 10)])
                (Some (list_to_map [("maxconcurrentrequests"%string, VInt 10)])))
      as (hc & Hhc & Hwindow); [vm_compute; reflexivity | reflexivity
                               | vm_compute; reflexivity |].
    etrans; [exact (f_equal (fmap sleepWindowInMillis) Hhc)|].
    simpl. by rewrite Hwindow.
Defined.

(** With both backoff configurations set, the retrier is the constant one. *)
Lemma retrier_selection_witness :
  getRetrier demoBackoffProfile =
    NewRetrier (NewConstantBackoff (2 * Millisecond) (5 * Millisecond))
  ∧ retrierOf (buildHTTPClient (L := demoLibs) demoBackoffProfile) =
      NewRetrier (NewConstantBackoff (2 * Millisecond) (5 * Millisecond)).
Proof.
  destruct (retrier_selection (L := demoLibs) demoBackoffProfile)
    as (Hconstant & _ & _ & Hengine).
  rewrite Hengine. split; exact (Hconstant _ _ eq_refl eq_refl).
Defined.

(** Of three configurations, one nil, the one with a breaker
    configuration gets the hystrix client under its own name. *)
Lemma engine_by_breaker_presence_witness :
  @kindOf demoTypes <$>
    (httpClients (ConfigureHTTPClient (L := demoLibs)
                    [Some demoProfile; None; Some demoBreakerProfile])
     !! "breaker"%string ≫= @heimdallClient demoTypes)
  = Some (Breaker "breaker").
Proof.
  destruct (engine_by_breaker_presence (L := demoLibs)
              [Some demoProfile; None; Some demoBreakerProfile] demoBreakerProfile)
    as [(rc' & _ & _ & Hentry & Hkind & Hlast) _].
  { do 2 apply list_elem_of_further. apply list_elem_of_here. }
  assert (rc' = demoBreakerProfile) as ->.
  { apply (Hlast [Some demoProfile; None] []); [reflexivity|].
    by intros rc2 ?%elem_of_nil. }
  change (rc_name demoBreakerProfile) with "breaker"%string in Hentry.
  rewrite Hentry. exact (f_equal Some Hkind).
Defined.

(** A nil logger, a sink and two loggers, in this order: the first logger
    and the sink stay, and a third logger changes nothing. *)
Lemma observers_set_once_witness :
  let c := foldl call (ConfigureHTTPClient (L := demoLibs) [Some demoProfile])
             demoSetters in
  c_l c = Some "first"%string ∧ c_m c = Some "sink"%string
  ∧ WithLogger (Some "third"%string : option (@Logger demoTypes)) c = c.
Proof.
  destruct (observers_set_once (L := demoLibs) [Some demoProfile] demoSetters)
    as ((Hl & Hm & _) & _ & _ & _ & Hnoop & _).
  cbv zeta. split_and!; [exact Hl | exact Hm |].
  apply Hnoop. exists ("first"%string : @Logger demoTypes). exact Hl.
Defined.

(** C1 fails on the code: the dispatch of a call that names no registered
    profile does not return; it panics. *)
Lemma unknown_profile_panics :
  httpClients demoClient !! "nowhere"%string = None
  ∧ (demoRun (NewRequest "nowhere") (demoState [(Some 200, None)])).1.1
    = Panicked nilDereference.
Proof. split; vm_compute; reflexivity. Qed.

(** The same dispatch, by the theorem: nothing is called and the call and
    the state are as before the panic; and a call to the same name that has
    a method, a URL and a header mapping of its own, the method not a
    valid one, gets the build error. *)
Lemma unregistered_dispatch_witness :
  events (demoRun (NewRequest "nowhere") (demoState [(Some 200, None)])).2 = []
  ∧ demoRun (NewRequest "nowhere") (demoState [(Some 200, None)])
    = (Panicked nilDereference, NewRequest "nowhere", demoState [(Some 200, None)])
  ∧ (demoRun demoUnknownBadCall demoLowerCaseState).1.1
    = Returned (None, Some (errors_New "net/http: invalid method BAD METHOD"))
  ∧ events (demoRun demoUnknownBadCall demoLowerCaseState).2 = [].
Proof.
  destruct (unregistered_dispatch (L := demoLibs) (R := demoRuntime) demoClient
              (NewRequest "nowhere") (demoState [(Some 200, None)]))
    as (Hevents & _ & Hpanic & _); [vm_compute; reflexivity|].
  destruct (unregistered_dispatch (L := demoLibs) (R := demoRuntime) demoClient
              demoUnknownBadCall demoLowerCaseState)
    as (Hevents' & _ & _ & Hbuild); [vm_compute; reflexivity|].
  split_and!; [exact Hevents | apply Hpanic; by left | | exact Hevents'].
  assert (http_parseRequest (GoLibs := demoLibs) (req_method demoUnknownBadCall)
            (req_url demoUnknownBadCall)
          = inr (errors_New "net/http: invalid method BAD METHOD")) as Hparse.
  { vm_compute. reflexivity. }
  specialize (Hbuild ltac:(discriminate) ltac:(discriminate) ltac:(by eexists)).
  rewrite Hparse in Hbuild. exact Hbuild.
Defined.

(** The dispatch of a new call named "test", with an engine that answers
    200. *)
Lemma demo_registered :
  httpClients demoClient !! req_name (NewRequest (T := demoTypes) "test") =
    Some {| heimdallClient := Some demoEngine; requestConfig := Some demoProfile |}.
Proof. vm_compute. reflexivity. Qed.

Lemma demo_trace :
  events (demoRun (NewRequest "test") (demoState [(Some 200, None)])).2 =
    events (demoState [(Some 200, None)])
    ++ EvDo demoEngine (demoWire "uuid-0") (Some 200 : option (@Response demoTypes)) None
       :: demoLogged.
Proof. vm_compute. reflexivity. Qed.

Lemma demo_uuid_source_inj : Inj (=) (=) (uuid_source (GoLibs := demoLibs)).
Proof.
  intros n m Heq. simpl in Heq. apply (inj (String.app "uuid-")) in Heq.
  by apply (inj pretty) in Heq.
Qed.

Lemma demo_identifier :
  requestID (L := demoLibs) (req_ctx (NewRequest (T := demoTypes) "test")) 0
  = "uuid-0"%string.
Proof. vm_compute. reflexivity. Qed.

(** The same call with an engine that returns nothing at all. *)
Lemma no_response_is_an_error_witness :
  (demoRun (NewRequest "test") (demoState [(None, None)])).1.1
  = Returned (None, Some (errors_New "unable to fetch response"))
  ∧ events (demoRun (NewRequest "test") (demoState [(None, None)])).2
    = [EvDo demoEngine (demoWire "uuid-0") None None].
Proof.
  assert (events (demoRun (NewRequest "test") (demoState [(None, None)])).2
          = events (demoState [(None, None)])
            ++ EvDo demoEngine (demoWire "uuid-0") None None :: []) as Hev.
  { vm_compute. reflexivity. }
  split; [|exact Hev].
  exact (proj1 (no_response_is_an_error (L := demoLibs) (R := demoRuntime)
                  demoClient _ _ _ _ _ Hev)).
Defined.


(** C5 fails on the code: a call whose header table has the name of the
    correlation header in another case goes out with two values under the
    canonical name. *)
Lemma correlation_header_twice :
  (λ req, valuesOf (Header req)
            (CanonicalMIMEHeaderKey (GoLibs := demoLibs) requestIDHeader))
    <$> sentRequests (events (demoRun demoLowerCaseCall demoLowerCaseState).2)
  = [["abc"; "uuid-0"]%string].
Proof. vm_compute. reflexivity. Qed.

(** With no other spelling of the name in the table, the identifier goes
    out once, and the next generated one differs. *)
Lemma correlation_header_witness :
  Header (demoWire "uuid-0")
    !! CanonicalMIMEHeaderKey (GoLibs := demoLibs) requestIDHeader
  = Some ["uuid-0"%string]
  ∧ uuids (demoRun (NewRequest "test") (demoState [(Some 200, None)])).2 = 1%nat
  ∧ requestID (T := demoTypes) (L := demoLibs) None 1 ≠ "uuid-0"%string.
Proof.
  destruct (correlation_header (L := demoLibs) (R := demoRuntime) demoClient
              (NewRequest "test") (demoState [(Some 200, None)]) demoEngine
              demoProfile (demoWire "uuid-0") (Some 200) None demoLogged
              demo_registered demo_trace) as (_ & _ & Hfresh & _ & Honce).
  destruct (Hfresh eq_refl) as (_ & Hcount & Hdistinct).
  change (uuids (demoState [(Some 200, None)])) with 0%nat in Honce, Hdistinct.
  rewrite demo_identifier in Honce, Hdistinct.
  split_and!; [| exact Hcount |].
  - apply (Honce (<[requestIDHeader := "uuid-0"%string]> demoHeaders));
      [vm_compute; reflexivity|].
    intros k [v Hk] Hcanon.
    destruct (decide (k = requestIDHeader)) as [|Hne]; [done|].
    rewrite lookup_insert_ne in Hk by done. unfold demoHeaders in Hk.
    apply lookup_insert_Some in Hk as [[<- _]|[_ Hk]];
      [vm_compute in Hcanon; discriminate Hcanon|].
    apply lookup_singleton_Some in Hk as [<- _].
    vm_compute in Hcanon. discriminate Hcanon.
  - apply (Hdistinct None 1%nat demo_uuid_source_inj eq_refl).
    by rewrite Hcount.
Defined.

(** C7 fails on the code: the dispatch fills in the method, the URL and
    the header mapping of the call. *)
Lemma call_is_written_to :
  (demoRun (NewRequest "test") (demoState [(Some 200, None)])).1.1
  = Returned (Some 200 : option (@Response demoTypes), None)
  ∧ req_method (NewRequest (T := demoTypes) "test") = ""%string
  ∧ req_method (demoRun (NewRequest "test") (demoState [(Some 200, None)])).1.2
    = "GET"%string
  ∧ req_url (NewRequest (T := demoTypes) "test") = ""%string
  ∧ req_url (demoRun (NewRequest "test") (demoState [(Some 200, None)])).1.2
    = "http://example.test"%string
  ∧ req_headerParams (NewRequest (T := demoTypes) "test") = None
  ∧ req_headerParams (demoRun (NewRequest "test") (demoState [(Some 200, None)])).1.2
    = Some 1%positive.
Proof. vm_compute. by repeat split. Qed.

(** What the call holds after the dispatch, by the theorem. *)
Lemma call_after_dispatch_witness :
  req_method (demoRun (NewRequest "test") (demoState [(Some 200, None)])).1.2
  = "GET"%string
  ∧ req_queryParams (demoRun (NewRequest "test") (demoState [(Some 200, None)])).1.2
    = None
  ∧ req_headerParams (demoRun (NewRequest "test") (demoState [(Some 200, None)])).1.2
    = Some 1%positive.
Proof.
  destruct (call_after_dispatch (L := demoLibs) (R := demoRuntime) demoClient
              (NewRequest "test") (demoState [(Some 200, None)]) demoEngine
              demoProfile demo_registered)
    as (_ & _ & _ & _ & Hquery & Hmethod & _ & p & Hp & Hsame & _).
  split_and!; [etrans; [exact Hmethod | vm_compute; reflexivity] | exact Hquery |].
  etrans; [exact Hp|]. f_equal.
  etrans; [exact Hsame | vm_compute; reflexivity].
Defined.

(** After the dispatch the profile's own table holds the identifier. *)
Lemma static_headers_shared_witness :
  req_headerParams (demoRun (NewRequest "test") (demoState [(Some 200, None)])).1.2
  = rc_headers demoProfile
  ∧ deref (demoRun (NewRequest "test") (demoState [(Some 200, None)])).2
      (rc_headers demoProfile)
    = Some (<[requestIDHeader := "uuid-0"%string]> demoHeaders).
Proof.
  destruct (static_headers_shared (L := demoLibs) (R := demoRuntime) demoClient
              (NewRequest "test") (demoState [(Some 200, None)]) demoEngine
              demoProfile 1%positive demoHeaders demo_registered)
    as (Href & Htable & _);
    [reflexivity | vm_compute; reflexivity | vm_compute; reflexivity |].
  change (uuids (demoState [(Some 200, None)])) with 0%nat in Htable.
  rewrite demo_identifier in Htable.
  split; [exact Href | exact Htable].
Defined.

(** * Further properties *)

(** ** Construction *)

Section FurtherConfiguration.
Context {T : GoTypes} {L : GoLibs}.

Lemma wrap64_small z : - 2 ^ 63 ≤ z < 2 ^ 63 → wrap64 z = z.
Proof. intros Hz. unfold wrap64. rewrite Z.mod_small; lia. Qed.

(** X1. A profile made from a map depends on the map through the fifteen
    keys of [profileKeys] only: two maps that agree on them give the same
    profile and the same store, and a map with none of them, the empty one
    included, gives the profile of the defaults, with its transport, while
    the nil map gives the bare profile, which has no transport and a retry
    count of zero. *)
Theorem profile_reads_its_keys_only name (m1 m2 : gmap string any) maps :
  ((∀ k, k ∈ profileKeys → m1 !! k = m2 !! k) →
   NewRequestConfig name (Some m1) maps = NewRequestConfig name (Some m2) maps)
  ∧ ((∀ k, k ∈ profileKeys → m1 !! k = None) →
     NewRequestConfig name (Some m1) maps = (defaultProfile name, maps))
  ∧ NewRequestConfig name None maps = (bareRequestConfig name, maps)
  ∧ rc_transport (bareRequestConfig name) = None
  ∧ rc_retryCount (bareRequestConfig name) = 0.
Proof.
  split_and!; [| |done..].
  - intros Hagree.
    unfold NewRequestConfig, getConfigOptionInt, getConfigOptionString,
      getConfigOptionMap, mapIndex. simpl.
    repeat match goal with
           | |- context [m1 !! ?k] =>
               rewrite (Hagree k)
                 by (unfold profileKeys;
                     repeat first [apply list_elem_of_here | apply list_elem_of_further])
           end.
    done.
  - intros Hnone.
    unfold NewRequestConfig, getConfigOptionInt, getConfigOptionString,
      getConfigOptionMap, mapIndex. simpl.
    repeat match goal with
           | |- context [m1 !! ?k] =>
               rewrite (Hnone k)
                 by (unfold profileKeys;
                     repeat first [apply list_elem_of_here | apply list_elem_of_further])
           end.
    done.
Qed.

(** X2. A breaker configuration depends on its map through the five keys
    of [breakerKeys] only, and the nil map, the empty map and every map
    without those keys give the same one: every threshold zero, no
    fallback, and a sleep window of 5000 milliseconds. *)
Theorem breaker_reads_its_keys_only (o1 o2 : option (gmap string any)) :
  ((∀ k, k ∈ breakerKeys → mapIndex o1 k = mapIndex o2 k) →
   NewHystrixConfig o1 = NewHystrixConfig o2)
  ∧ ((∀ k, k ∈ breakerKeys → mapIndex o1 k = None) →
     NewHystrixConfig o1 =
       {| hystrixTimeout := 0; maxConcurrentRequests := 0; errorPercentThreshold := 0;
          sleepWindowInMillis := 5000; requestVolumeThreshold := 0;
          fallback := None |})
  ∧ NewHystrixConfig None = NewHystrixConfig (Some ∅).
Proof.
  split_and!; [| |done].
  - intros Hagree. unfold NewHystrixConfig, getConfigOptionInt.
    repeat match goal with
           | |- context [mapIndex o1 ?k] =>
               rewrite (Hagree k)
                 by (unfold breakerKeys;
                     repeat first [apply list_elem_of_here | apply list_elem_of_further])
           end.
    done.
  - intros Hnone. unfold NewHystrixConfig, getConfigOptionInt.
    repeat match goal with
           | |- context [mapIndex o1 ?k] =>
               rewrite (Hnone k)
                 by (unfold breakerKeys;
                     repeat first [apply list_elem_of_here | apply list_elem_of_further])
           end.
    done.
Qed.

(** X3. A [timeoutinmillis] that casts to an integer of at most
    9223372036854 in absolute value resolves to exactly that many
    milliseconds, and then a missing [connecttimeoutinmillis] resolves to a
    tenth of it, 100000 nanoseconds for each millisecond. *)
Theorem timeout_exact_in_range name (m : gmap string any) maps val n :
  m !! "timeoutinmillis" = Some val →
  cast_ToIntE val = (n, None) →
  - 9223372036854 ≤ n ≤ 9223372036854 →
  let rc := (NewRequestConfig name (Some m) maps).1 in
  rc_timeout rc = n * Millisecond
  ∧ (m !! "connecttimeoutinmillis" = None → rc_connectTimeout rc = n * 100000).
Proof.
  intros Hval Hcast Hrange rc.
  assert (rc_timeout rc = n * Millisecond) as Htimeout.
  { subst rc. rewrite NewRequestConfig_timeout.
    rewrite (getConfigOptionInt_present _ _ val) by done. rewrite Hcast.
    unfold millis, Millisecond. apply wrap64_small. lia. }
  split; [done|]. intros Hnone. subst rc.
  rewrite NewRequestConfig_connectTimeout, getConfigOptionInt_missing by done.
  rewrite Htimeout. unfold Millisecond.
  replace (n * 1000000) with (n * 100000 * 10) by lia. by rewrite Z.quot_mul.
Qed.

(** X4. The transport of a profile made from a map is an [http.Transport]
    that takes its proxy from the environment, attempts HTTP/2, and has
    the connect timeout, keep-alive, idle limits and handshake timeouts the
    profile resolved to. It has a TLS configuration exactly when
    [tlsminversion] casts to one of the strings 1.0, 1.1, 1.2 and 1.3, and
    a later version is a greater number. *)
Theorem transport_agrees_with_profile name (m : gmap string any) maps :
  let rc := (NewRequestConfig name (Some m) maps).1 in
  let tlsMinVersion := (getConfigOptionString (Some m) "tlsminversion").1 in
  rc_transport rc = Some (HTTPTransport (transportFor rc (tlsConfigOf tlsMinVersion)))
  ∧ (is_Some (tlsConfigOf tlsMinVersion)
     ↔ tlsMinVersion ∈ ["1.0"; "1.1"; "1.2"; "1.3"]%string)
  ∧ tlsConfigOf "1.0" = Some VersionTLS10 ∧ tlsConfigOf "1.1" = Some VersionTLS11
  ∧ tlsConfigOf "1.2" = Some VersionTLS12 ∧ tlsConfigOf "1.3" = Some VersionTLS13
  ∧ VersionTLS10 < VersionTLS11 < VersionTLS12 ∧ VersionTLS12 < VersionTLS13.
Proof.
  cbv zeta. split_and!; try done.
  - unfold NewRequestConfig. split_results. done.
  - set (s := (getConfigOptionString (Some m) "tlsminversion").1). clearbody s.
    unfold tlsConfigOf.
    destruct (decide (s = "1.0"%string)) as [->|Hne0];
      [split; [intros _; by left | by eauto]|].
    destruct (decide (s = "1.1"%string)) as [->|Hne1];
      [split; [intros _; right; by left | by eauto]|].
    destruct (decide (s = "1.2"%string)) as [->|Hne2];
      [split; [intros _; do 2 right; by left | by eauto]|].
    destruct (decide (s = "1.3"%string)) as [->|Hne3];
      [split; [intros _; do 3 right; by left | by eauto]|].
    split; [by intros [? [=]]|]. intros Hin.
    repeat (apply elem_of_cons in Hin as [?|Hin]; [done|]).
    by apply elem_of_nil in Hin.
Qed.

End FurtherConfiguration.

(** ** Engines and the registry, further *)

Section FurtherEngines.
Context {T : GoTypes} {L : GoLibs}.

Implicit Types (rc : RequestConfig) (rcs : list (option RequestConfig)).

(** X5. The HTTP client of a profile has the profile's timeout and
    redirect policy, and the profile's transport with at most its proxy
    changed: with a proxy URL that parses and an [http.Transport], the
    transport's proxy is that URL and its other fields are as they were;
    with no proxy URL, a nil or foreign transport, or a proxy URL that does
    not parse, the transport is the profile's, untouched. *)
Theorem getClient_proxy rc :
  hc_Timeout (getClient rc) = rc_timeout rc
  ∧ hc_CheckRedirect (getClient rc) = rc_checkRedirect rc
  ∧ (∀ t pURL,
       rc_proxyURL rc ≠ ""%string →
       rc_transport rc = Some (HTTPTransport t) →
       url_Parse (rc_proxyURL rc) = inl pURL →
       hc_Transport (getClient rc) = Some (HTTPTransport (withProxy (ProxyURL pURL) t))
       ∧ withProxy (Proxy t) (withProxy (ProxyURL pURL) t) = t)
  ∧ (rc_proxyURL rc = ""%string
     ∨ rc_transport rc = None
     ∨ (∃ r, rc_transport rc = Some (CustomRoundTripper r))
     ∨ (∃ e, url_Parse (rc_proxyURL rc) = inr e) →
     hc_Transport (getClient rc) = rc_transport rc).
Proof.
  unfold getClient, setProxy, transport. simpl.
  destruct (decide (rc_proxyURL rc = ""%string)) as [Hempty|Hproxy].
  { split_and!; [done | done | by intros | done]. }
  destruct (rc_transport rc) as [[t|r]|] eqn:Htransport; simpl;
    destruct (url_Parse (rc_proxyURL rc)) as [pURL|e] eqn:Hparse; simpl.
  all: split_and!; try done.
  all: try (intros t' pURL' _ [= <-] [= <-]; split; [done | by destruct t]).
  all: try (intros t' pURL' _ [=]).
  all: try (intros t' pURL' _ _ [=]).
  intros [?|[[=]|[[r [=]]|[e [=]]]]]. done.
Qed.

(** X6. On a profile whose transport is not an [http.Transport], as that
    of a profile made without a map and given no transport, a proxy URL
    changes nothing in the engine that is built. *)
Theorem proxy_needs_http_transport rc proxyURL :
  (rc_transport rc = None ∨ ∃ r, rc_transport rc = Some (CustomRoundTripper r)) →
  buildHTTPClient (SetProxy proxyURL rc) = buildHTTPClient rc.
Proof.
  intros Htransport.
  assert (getClient (SetProxy proxyURL rc) = getClient rc) as Hclient.
  { unfold getClient, setProxy, transport. simpl.
    destruct Htransport as [->|[r ->]]; simpl; by repeat case_decide. }
  unfold buildHTTPClient. rewrite Hclient. done.
Qed.

(** X7. The engine of a profile does not read the profile's connect
    timeout, keep-alive, idle-connection limits, TLS handshake timeout or
    expect-continue timeout: a setter of one of them, called on a profile
    however made, leaves the engine that is built as it was (those settings
    reach the engine through the transport of the profile only). The
    request timeout is read: the engine and its HTTP client have the one
    that was set. *)
Theorem tuning_setters_do_not_reach_the_engine rc d :
  buildHTTPClient (SetConnectTimeout d rc) = buildHTTPClient rc
  ∧ buildHTTPClient (SetKeepAlive d rc) = buildHTTPClient rc
  ∧ buildHTTPClient (SetMaxIdleConnections d rc) = buildHTTPClient rc
  ∧ buildHTTPClient (SetIdleConnectionTimeout d rc) = buildHTTPClient rc
  ∧ buildHTTPClient (SetTLSHandshakeTimeout d rc) = buildHTTPClient rc
  ∧ buildHTTPClient (SetExpectContinueTimeout d rc) = buildHTTPClient rc
  ∧ httpTimeoutOf (buildHTTPClient (SetTimeout d rc)) = d
  ∧ hc_Timeout (doerOf (buildHTTPClient (SetTimeout d rc))) = d.
Proof.
  split_and!; try done.
  - unfold buildHTTPClient. simpl. by destruct (rc_hystrixConfig rc).
  - unfold buildHTTPClient, getClient, setProxy, transport. simpl.
    destruct (rc_hystrixConfig rc); simpl; repeat case_match; done.
Qed.

(** X8. A fallback reaches the engine only through a breaker
    configuration that is already there: on a profile without one,
    [SetHystrixFallback] changes nothing and the engine built from the
    profile stays the plain one; on a profile with one, the engine built
    from the profile is the hystrix client, under the profile's name, with
    that fallback. *)
Theorem fallback_needs_breaker rc fallbackFn :
  (rc_hystrixConfig rc = None →
   SetHystrixFallback fallbackFn rc = rc
   ∧ kindOf (buildHTTPClient (SetHystrixFallback fallbackFn rc)) = PlainRetry)
  ∧ (is_Some (rc_hystrixConfig rc) →
     kindOf (buildHTTPClient (SetHystrixFallback fallbackFn rc)) = Breaker (rc_name rc)
     ∧ fallbackOf (buildHTTPClient (SetHystrixFallback fallbackFn rc)) = fallbackFn).
Proof.
  split.
  - intros Hnone. unfold SetHystrixFallback. rewrite Hnone. split; [done|].
    unfold buildHTTPClient. by rewrite Hnone.
  - intros [hc Hsome]. unfold SetHystrixFallback. rewrite Hsome. done.
Qed.


Lemma namesOf_elem name rcs :
  name ∈ namesOf rcs ↔ ∃ rc, Some rc ∈ rcs ∧ rc_name rc = name.
Proof.
  unfold namesOf. rewrite list_elem_of_omap. split.
  - intros ([rc|] & Hin & Hname); simplify_eq/=. eauto.
  - intros (rc & Hin & Hname). exists (Some rc). by rewrite <- Hname.
Qed.

Lemma lastNamed_None name rcs : lastNamed name rcs = None ↔ name ∉ namesOf rcs.
Proof.
  rewrite namesOf_elem. split.
  - intros Hnone (rc & Hin & <-).
    destruct (lastNamed_is_Some _ _ Hin) as [rc' Hsome]. congruence.
  - intros Hnot. destruct (lastNamed name rcs) as [rc|] eqn:Hlast; [|done].
    destruct Hnot. apply lastNamed_elem in Hlast as [? ?]. eauto.
Qed.

(** X10. The registry holds exactly the names of the non-nil profiles it
    was made from: the registered names are the names of the profiles of
    the list, a name is not registered if and only if no profile of the
    list has it, and nil entries add nothing. *)
Theorem registry_names rcs :
  dom (httpClients (ConfigureHTTPClient rcs)) = list_to_set (namesOf rcs)
  ∧ (∀ name, httpClients (ConfigureHTTPClient rcs) !! name = None
             ↔ ∀ rc, Some rc ∈ rcs → rc_name rc ≠ name)
  ∧ httpClients (ConfigureHTTPClient (filter is_Some rcs))
    = httpClients (ConfigureHTTPClient rcs).
Proof.
  assert (∀ name, httpClients (ConfigureHTTPClient rcs) !! name
                  = entryOf <$> lastNamed name rcs) as Hlookup.
  { intros name. simpl. rewrite foldl_register_lookup, lookup_empty.
    by destruct (lastNamed name rcs). }
  split_and!.
  - apply set_eq. intros name. rewrite elem_of_dom, Hlookup, elem_of_list_to_set.
    rewrite fmap_is_Some, <- not_eq_None_Some, lastNamed_None.
    split; [apply dec_stable | by intros ? ?].
  - intros name. rewrite Hlookup, fmap_None, lastNamed_None, namesOf_elem.
    split.
    + intros Hnot rc Hin Hname. apply Hnot. eauto.
    + intros Hall (rc & Hin & Hname). by apply (Hall rc).
  - simpl. clear Hlookup. generalize (∅ : gmap string ClientRequestMapping).
    induction rcs as [|[rc|] rcs IH]; intros m0; [done| |].
    + rewrite filter_cons_True by eauto. simpl. apply IH.
    + rewrite filter_cons_False by (by intros [? ?]). simpl. apply IH.
Qed.

Lemma lastNamed_NoDup name rcs rc :
  NoDup (namesOf rcs) → Some rc ∈ rcs → rc_name rc = name →
  lastNamed name rcs = Some rc.
Proof.
  intros Hnodup Hin <-. induction rcs as [|x rcs IH]; [by apply elem_of_nil in Hin|].
  simpl. apply elem_of_cons in Hin as [<-|Hin].
  - simpl in Hnodup. apply NoDup_cons in Hnodup as [Hfresh _].
    apply lastNamed_None in Hfresh. rewrite Hfresh. by rewrite decide_True.
  - assert (NoDup (namesOf rcs)) as Hnodup'.
    { destruct x; simpl in Hnodup; [by apply NoDup_cons in Hnodup as [_ ?] | done]. }
    by rewrite (IH Hnodup' Hin).
Qed.

(** X11. When the profiles of a list have different names and the proxy
    override applies to none of them (no proxy URL, or a transport that is
    nil or not an [http.Transport], or a proxy URL that does not parse), so
    that making the client writes to no transport, the order in which the
    profiles are listed does not matter: every reordering of the list gives
    the same client, and the HTTP client of each profile has the profile's
    transport as it is. *)
Theorem registry_ignores_order rcs1 rcs2 :
  NoDup (namesOf rcs1) → rcs1 ≡ₚ rcs2 →
  (∀ rc, Some rc ∈ rcs1 → proxyNotApplied rc) →
  ConfigureHTTPClient rcs1 = ConfigureHTTPClient rcs2
  ∧ ∀ rc, Some rc ∈ rcs2 → hc_Transport (getClient rc) = rc_transport rc.
Proof.
  intros Hnodup1 Hperm Hkept. split.
  2:{ intros rc Hin. rewrite <- Hperm in Hin. specialize (Hkept rc Hin).
      unfold getClient, setProxy, transport. simpl.
      destruct (decide (rc_proxyURL rc = ""%string)); [done|].
      destruct Hkept as [?|[Hnil|[[r Hr]|[e He]]]]; [done| | |].
      - by rewrite Hnil.
      - by rewrite Hr.
      - rewrite He. by destruct (rc_transport rc) as [[?|?]|]. }
  assert (NoDup (namesOf rcs2)) as Hnodup2.
  { unfold namesOf. by rewrite <- Hperm. }
  unfold ConfigureHTTPClient. f_equal. apply map_eq. intros name.
  rewrite !foldl_register_lookup, !lookup_empty.
  destruct (lastNamed name rcs1) as [rc1|] eqn:Hlast1.
  - apply lastNamed_elem in Hlast1 as [Hin Hname]. rewrite Hperm in Hin.
    by rewrite (lastNamed_NoDup name rcs2 rc1).
  - destruct (lastNamed name rcs2) as [rc2|] eqn:Hlast2; [|done].
    apply lastNamed_elem in Hlast2 as [Hin Hname]. rewrite <- Hperm in Hin.
    rewrite (lastNamed_NoDup name rcs1 rc2) in Hlast1; done.
Qed.

End FurtherEngines.

(** ** Dispatch, further *)

Section FurtherDispatch.
Context {T : GoTypes} {L : GoLibs} {R : GoRuntime}.

Implicit Types (c : Client) (request : Request) (σ : State) (rc : RequestConfig).
Implicit Types (tbl : gmap string string) (ctx : Context).

Lemma addHeaders_nonempty kvs (h : gmap string (list string)) :
  (∀ key vs, h !! key = Some vs → vs ≠ []) →
  ∀ key vs, addHeaders kvs h !! key = Some vs → vs ≠ [].
Proof.
  revert h. induction kvs as [|[k v] kvs IH]; intros h Hh; [done|].
  unfold addHeaders in *. simpl. apply IH. intros key vs. unfold Header_Add. simpl.
  destruct (decide (CanonicalMIMEHeaderKey k = key)) as [<-|Hne].
  - rewrite lookup_insert_eq. intros [= <-]. by destruct (default [] _).
  - rewrite lookup_insert_ne by done. apply Hh.
Qed.

(** X12. [getRequest] fails exactly when [http.NewRequest] does, with its
    error. Otherwise the request has the method and URL that were parsed,
    the URL with the query parameters added when the query mapping is not
    nil and untouched when it is, the body and the context it was given,
    and a header with, under each name, the values the header mapping has
    under a key of that canonical name; a name has an entry in the header
    only if the mapping has such a key, and a nil or empty mapping gives an
    empty header. *)
Theorem getRequest_builds ctx method url (q h : option (gmap string string)) body :
  (∀ e, getRequest ctx method url q h body = inr e
        ↔ http_parseRequest method url = inr e)
  ∧ ∀ req,
      getRequest ctx method url q h body = inl req →
      (∃ u, http_parseRequest method url = inl (Method req, u)
            ∧ URL_ req = from_option (url_addQuery u) u q)
      ∧ Body req = body ∧ ctx_ req = ctx
      ∧ (∀ key v, v ∈ valuesOf (Header req) key
                  ↔ ∃ tbl k, h = Some tbl ∧ CanonicalMIMEHeaderKey k = key
                             ∧ tbl !! k = Some v)
      ∧ (∀ key, is_Some (Header req !! key)
                ↔ ∃ tbl k, h = Some tbl ∧ CanonicalMIMEHeaderKey k = key
                           ∧ is_Some (tbl !! k))
      ∧ (h = None ∨ h = Some ∅ → Header req = ∅).
Proof.
  unfold getRequest.
  destruct (http_parseRequest method url) as [[method' u]|e'].
  2:{ split; [|done]. intros e. split; by intros [= ->]. }
  split; [intros e; split; by intros|]. intros req [= <-]. simpl.
  assert (∀ key v, v ∈ valuesOf (addHeaders (from_option rangeMap [] h) ∅) key
                   ↔ ∃ tbl k, h = Some tbl ∧ CanonicalMIMEHeaderKey k = key
                              ∧ tbl !! k = Some v) as Hvalues.
  { intros key v. destruct h as [tbl|]; simpl.
    - change (addHeaders (rangeMap tbl) ∅) with (wireHeader tbl).
      rewrite (wireHeader_elem tbl key v). split.
      + intros (k & ? & ?). eauto.
      + intros (tbl' & k & [= <-] & ? & ?). eauto.
    - unfold valuesOf, addHeaders. simpl. rewrite lookup_empty. simpl. split.
      + by intros ?%elem_of_nil.
      + by intros (? & ? & [=] & _). }
  split_and!; [by destruct q; eauto | done | done | done | |].
  - intros key. split.
    + intros [vs Hvs].
      assert (vs ≠ []) as Hne.
      { eapply addHeaders_nonempty; [|exact Hvs]. intros ? ?. by rewrite lookup_empty. }
      destruct vs as [|v vs]; [done|].
      destruct (proj1 (Hvalues key v)) as (tbl & k & ? & ? & ?).
      { unfold valuesOf. rewrite Hvs. by left. }
      exists tbl, k. eauto.
    + intros (tbl & k & -> & Hk & [v Hv]).
      assert (v ∈ valuesOf (addHeaders (from_option rangeMap [] (Some tbl)) ∅) key)
        as Hin by (apply Hvalues; eauto).
      unfold valuesOf in Hin. destruct (addHeaders _ _ !! key); [done|].
      by apply elem_of_nil in Hin.
  - intros [->| ->]; simpl; [done|].
    assert (rangeMap (∅ : gmap string string) = []) as ->; [|done].
    apply Permutation_nil_r. rewrite rangeMap_perm. by rewrite map_to_list_empty.
Qed.

Lemma fillDefaults_frame (client : ClientRequestMapping) request r1 :
  fillDefaults client request = Some r1 →
  req_name r1 = req_name request ∧ req_ctx r1 = req_ctx request
  ∧ req_body r1 = req_body request ∧ req_queryParams r1 = req_queryParams request.
Proof.
  unfold fillDefaults. destruct request as [name ctx method url q h body]. simpl.
  destruct (decide (method = ""%string)), (decide (url = ""%string)), h,
    (requestConfig client); simpl; repeat case_decide; simpl; try done;
    intros [= <-]; done.
Qed.

Lemma observers_events c request start statusCode σ :
  ∃ ms1 ms2,
    events (metricLatencyAndStatusCode c request start statusCode
              (logLatencyAndStatusCode c request start statusCode σ))
    = events σ ++ observerEvents c request statusCode ms1 ms2.
Proof.
  unfold metricLatencyAndStatusCode, logLatencyAndStatusCode, observerEvents, now.
  destruct (c_l c) as [l|], (c_m c) as [m|]; simpl;
    repeat (destruct (time_Now _) as [? ?]; simpl).
  - eexists _, _. by rewrite <- app_assoc.
  - eexists _, 0. done.
  - eexists 0, _. done.
  - exists 0, 0. by rewrite app_nil_r.
Qed.

(** What follows the call to the engine in the trace of a dispatch. *)
Lemma Client_Request_tail c request σ engine req response err tail :
  events (Client_Request c request σ).2 =
    events σ ++ EvDo engine req response err :: tail →
  (Client_Request c request σ).1.1 = outcomeOf response err
  ∧ match err, response with
    | None, Some resp =>
        ∃ ms1 ms2, tail = observerEvents c request (StatusCode resp) ms1 ms2
    | _, _ => tail = []
    end.
Proof.
  unfold Client_Request.
  destruct (fillDefaults _ request) as [r1|] eqn:Hfill.
  2:{ simpl. by intros ?%app_cons_not_nil. }
  apply fillDefaults_frame in Hfill as (Hname & Hctx & _ & _).
  rewrite contextID_getRequestID.
  set (id := requestID (req_ctx r1) (uuids σ)).
  set (σ1 := if contextID (req_ctx r1) is Some _ then σ else (uuid_NewString σ).2).
  assert (events σ1 = events σ) as Hev1.
  { subst σ1. by destruct (contextID _). }
  destruct (SetHeaderParam_frame requestIDHeader id r1 σ1) as (Hev2 & _ & _ & Hr2).
  destruct (SetHeaderParam requestIDHeader id r1 σ1) as [r2 σ2]. cbn [fst snd] in *.
  assert (req_name r2 = req_name request ∧ req_ctx r2 = req_ctx request)
    as [Hname2 Hctx2].
  { rewrite <- Hname, <- Hctx, <- Hr2. by destruct r2. }
  destruct (now_frame σ2) as (_ & Hev3 & _).
  destruct (now σ2) as [start σ3]. cbn [fst snd] in *.
  destruct (getRequest _ _ _ _ _ _) as [req'|e].
  2:{ simpl. rewrite Hev3, Hev2, Hev1. by intros ?%app_cons_not_nil. }
  destruct (heimdallClient _) as [engine'|].
  2:{ simpl. rewrite Hev3, Hev2, Hev1. by intros ?%app_cons_not_nil. }
  destruct (heimdall_Do engine' req' (world σ3)) as [[response' err'] w].
  set (σ4 := emit _ _).
  assert (events σ4 = events σ ++ [EvDo engine' req' response' err']) as Hev4.
  { subst σ4. simpl. congruence. }
  clearbody σ4.
  destruct err' as [e|].
  { simpl. rewrite Hev4.
    intros [[= <- <- <- <-] <-]%app_cons_inv. done. }
  destruct response' as [resp|].
  2:{ simpl. rewrite Hev4.
      intros [[= <- <- <- <-] <-]%app_cons_inv. done. }
  destruct (observers_events c r2 start (StatusCode resp) σ4) as (ms1 & ms2 & Hev5).
  simpl. rewrite Hev5, Hev4, <- app_assoc. simpl.
  intros [[= <- <- <- <-] <-]%app_cons_inv. split; [done|].
  exists ms1, ms2. unfold observerEvents. by rewrite Hname2, Hctx2.
Qed.

(** X13. When the engine returns a response and no error, the dispatch
    returns that response and no error, and then calls the observers the
    client holds, the logger first and the metrics sink second, each once,
    with the context and the name of the call and the status code of the
    response; a client without observers calls none. *)
Theorem observers_after_success c request σ engine req resp tail :
  events (Client_Request c request σ).2 =
    events σ ++ EvDo engine req (Some resp) None :: tail →
  (Client_Request c request σ).1.1 = Returned (Some resp, None)
  ∧ ∃ ms1 ms2,
      tail =
        from_option
          (λ l, [EvLog l (req_ctx request)
                   (fulfilled (req_name request) (StatusCode resp) ms1)])
          [] (c_l c)
        ++ from_option
             (λ m, [EvMetric m (req_ctx request) (req_name request)
                      {| Status := StatusCode resp; LatencyInMillis := ms2 |}])
             [] (c_m c).
Proof. intros Hev. exact (Client_Request_tail _ _ _ _ _ _ _ _ Hev). Qed.

(** X14. When the engine returns an error, the dispatch returns that
    error together with whatever response the engine returned, nil or not,
    and calls no observer. *)
Theorem engine_error_is_returned c request σ engine req response e tail :
  events (Client_Request c request σ).2 =
    events σ ++ EvDo engine req response (Some e) :: tail →
  (Client_Request c request σ).1.1 = Returned (response, Some e) ∧ tail = [].
Proof.
  intros Hev. destruct (Client_Request_tail _ _ _ _ _ _ _ _ Hev) as [Hout Htail].
  by destruct response.
Qed.

(** X15. When building the wire request fails for a registered profile,
    on the call's own method and URL or on the profile's where the call
    has none, the dispatch returns that error with no response and calls
    nothing, neither the engine nor an observer. The call has been written
    to all the same: its header mapping holds the correlation id, and an
    identifier was generated for it unless the context brought one. *)
Theorem build_failure_aborts c request σ engine rc e :
  httpClients c !! req_name request =
    Some {| heimdallClient := Some engine; requestConfig := Some rc |} →
  http_parseRequest (req_method (defaulted rc request)) (req_url (defaulted rc request))
    = inr e →
  let id := requestID (req_ctx request) (uuids σ) in
  let r' := (Client_Request c request σ).1.2 in
  let σ' := (Client_Request c request σ).2 in
  (Client_Request c request σ).1.1 = Returned (None, Some e)
  ∧ events σ' = events σ
  ∧ deref σ' (req_headerParams r') ≫= (.!! requestIDHeader) = Some id
  ∧ uuids σ' = (if contextID (req_ctx request) is Some _ then uuids σ
                else S (uuids σ)).
Proof.
  intros Hentry Hparse id r' σ'.
  destruct (dispatch_registered c request σ engine rc Hentry)
    as (out & r0 & σ0 & p & Hrun & _ & Hp & _ & Htbl & _ & Hu & Hcourse).
  subst r' σ'. rewrite Hrun. simpl. rewrite Hparse in Hcourse.
  destruct Hcourse as [-> ->]. split_and!; [done | done | | done].
  unfold deref. rewrite Hp. simpl. rewrite Htbl. simpl. by rewrite lookup_insert_eq.
Qed.

(** X16. The wire request of a dispatch against a registered profile is
    made from the call's method and URL, each replaced by the profile's
    when empty, with the body and the context of the call. Its query
    parameters are those of the call's query mapping as it is when the
    request is built, which is after the correlation id has been written:
    a query mapping that is another map than the header mapping is sent as
    it was before the dispatch, and a call that uses one map for both
    sends the correlation id as a query parameter too. *)
Theorem wire_request_of_call c request σ engine rc req response err tail :
  httpClients c !! req_name request =
    Some {| heimdallClient := Some engine; requestConfig := Some rc |} →
  events (Client_Request c request σ).2 =
    events σ ++ EvDo engine req response err :: tail →
  let id := requestID (req_ctx request) (uuids σ) in
  let r' := (Client_Request c request σ).1.2 in
  let σ' := (Client_Request c request σ).2 in
  ∃ u,
    http_parseRequest
      (if decide (req_method request = ""%string) then rc_method rc
       else req_method request)
      (if decide (req_url request = ""%string) then rc_url rc else req_url request)
    = inl (Method req, u)
    ∧ URL_ req = from_option (url_addQuery u) u (deref σ' (req_queryParams request))
    ∧ Body req = req_body request ∧ ctx_ req = req_ctx request
    ∧ (req_queryParams request = None → URL_ req = u)
    ∧ (req_queryParams request ≠ req_headerParams r' →
       deref σ' (req_queryParams request) = deref σ (req_queryParams request))
    ∧ (∀ p tbl, req_queryParams request = Some p → req_headerParams request = Some p →
                maps σ !! p = Some tbl →
                URL_ req = url_addQuery u (<[requestIDHeader := id]> tbl)).
Proof.
  intros Hentry Hev id r' σ'.
  destruct (dispatch_registered c request σ engine rc Hentry)
    as (out & r0 & σ0 & p & Hrun & _ & Hp & Hfresh & Htbl & Hrest & _ & Hcourse).
  subst r' σ'. rewrite Hrun in Hev |- *. simpl in Hev |- *.
  change (req_method (defaulted rc request))
    with (if decide (req_method request = ""%string) then rc_method rc
          else req_method request) in Hcourse.
  change (req_url (defaulted rc request))
    with (if decide (req_url request = ""%string) then rc_url rc
          else req_url request) in Hcourse.
  destruct (http_parseRequest _ _) as [[method u]|e].
  2:{ destruct Hcourse as [_ Hsame]. rewrite Hsame in Hev.
      by apply app_cons_not_nil in Hev. }
  destruct Hcourse as (response' & err' & tail' & Hev' & _).
  rewrite Hev' in Hev. apply app_cons_inv in Hev as [[= <- _ _] _]. simpl.
  exists u. split_and!; [done | by destruct (deref σ0 _) | done | done | | |].
  - intros Hnone. simpl in Hnone. by rewrite Hnone.
  - intros Hne. unfold deref.
    destruct (req_queryParams request) as [q|]; [|done]. simpl.
    apply Hrest. intros ->. by rewrite Hp in Hne.
  - intros q tbl Hq Hh Hq_tbl. simpl in Hq. unfold defaulted in Hfresh.
    simpl in Hfresh. rewrite Hh in Hfresh. subst p.
    unfold deref. rewrite Hq. simpl. rewrite Htbl, Hq_tbl. done.
Qed.

(** X17. After its first dispatch against a registered profile a call is
    complete: later dispatches of the same call, from whatever state,
    leave its fields as they are. *)
Theorem dispatched_call_is_stable c request σ engine rc σ2 :
  httpClients c !! req_name request =
    Some {| heimdallClient := Some engine; requestConfig := Some rc |} →
  let r' := (Client_Request c request σ).1.2 in
  (Client_Request c r' σ2).1.2 = r'.
Proof.
  intros Hentry r'.
  destruct (dispatch_registered c request σ engine rc Hentry)
    as (out & r0 & σ0 & p & Hrun & Hr0 & Hp & _).
  subst r'. rewrite Hrun. simpl.
  assert (req_name r0 = req_name request) as Hname.
  { transitivity (req_name (defaulted rc request)); [|done]. rewrite <- Hr0.
    by destruct r0. }
  assert (defaulted rc r0 = r0) as Hstable.
  { assert (req_method r0 = req_method (defaulted rc request)
            ∧ req_url r0 = req_url (defaulted rc request)) as [Hme Hur].
    { rewrite <- Hr0. by destruct r0. }
    simpl in Hme, Hur. unfold defaulted. rewrite Hp.
    destruct r0 as [name ctx method url q h body]. simpl in *.
    unfold with_headerParams, with_url, with_method. simpl. subst h. f_equal.
    - destruct (decide (method = ""%string)) as [Hempty|]; [|done].
      rewrite Hempty in Hme. destruct (decide (req_method request = ""%string));
        congruence.
    - destruct (decide (url = ""%string)) as [Hempty|]; [|done].
      rewrite Hempty in Hur. destruct (decide (req_url request = ""%string));
        congruence. }
  rewrite <- Hname in Hentry.
  destruct (dispatch_registered c r0 σ2 engine rc Hentry)
    as (out2 & r2 & σ3 & p2 & Hrun2 & Hr2 & Hp2 & Hsame & _).
  rewrite Hrun2. simpl. rewrite Hstable in Hr2, Hsame. rewrite Hp in Hr2, Hsame.
  subst p2. rewrite <- Hr2. destruct r2. simpl in *. by subst.
Qed.

(** X18. A profile's static headers keep one correlation id at a time:
    after a second dispatch with a nil header mapping against the profile,
    its table is the table it had before the first, with the identifier of
    the second dispatch, and the first identifier is gone from it unless
    the two are the same. *)
Theorem stale_identifier_is_overwritten c request request2 σ engine rc p tbl :
  httpClients c !! req_name request =
    Some {| heimdallClient := Some engine; requestConfig := Some rc |} →
  req_name request2 = req_name request →
  req_headerParams request = None → req_headerParams request2 = None →
  rc_headers rc = Some p → maps σ !! p = Some tbl →
  let σ' := (Client_Request c request σ).2 in
  let id2 := requestID (req_ctx request2) (uuids σ') in
  let σ'' := (Client_Request c request2 σ').2 in
  maps σ'' !! p = Some (<[requestIDHeader := id2]> tbl).
Proof.
  intros Hentry Hname Hnil Hnil2 Hp Htbl σ' id2 σ''.
  destruct (dispatch_registered c request σ engine rc Hentry)
    as (out & r0 & σ0 & q & Hrun & _ & _ & Hq & Hfirst & _).
  unfold defaulted in Hq. simpl in Hq. rewrite Hnil, Hp in Hq. subst q.
  rewrite Htbl in Hfirst. simpl in Hfirst.
  rewrite <- Hname in Hentry.
  destruct (dispatch_registered c request2 σ' engine rc Hentry)
    as (out2 & r2 & σ2 & q & Hrun2 & _ & _ & Hq & Hsecond & _).
  unfold defaulted in Hq. simpl in Hq. rewrite Hnil2, Hp in Hq. subst q.
  subst σ'' id2 σ'. rewrite Hrun2. simpl. rewrite Hsecond.
  rewrite Hrun. simpl. rewrite Hfirst. simpl. by rewrite insert_insert_eq.
Qed.

(** X19. A dispatch takes at most one identifier from the generator, and
    none when it panics at the profile or when the context brings a
    string under [idParam]. *)
Theorem one_identifier_per_dispatch c request σ :
  let σ' := (Client_Request c request σ).2 in
  (uuids σ ≤ uuids σ' ≤ S (uuids σ))%nat
  ∧ (is_Some (contextID (req_ctx request)) → uuids σ' = uuids σ)
  ∧ (fillDefaults (default noMapping (httpClients c !! req_name request)) request
     = None → σ' = σ).
Proof.
  cbv zeta. pose proof (Client_Request_spec c request σ) as Hspec.
  cbv zeta in Hspec.
  destruct (fillDefaults _ request) as [r1|] eqn:Hfill.
  2:{ rewrite Hspec. simpl. split_and!; try done. by repeat constructor. }
  apply fillDefaults_frame in Hfill as (_ & Hctx & _).
  destruct Hspec as (out & σ' & Hrun & _ & Hu & _). rewrite Hrun. simpl.
  destruct (SetHeaderParam_frame requestIDHeader
              (requestID (req_ctx r1) (uuids σ)) r1 (getRequestID (req_ctx r1) σ).2)
    as (_ & _ & Hu2 & _).
  destruct (getRequestID_frame (req_ctx r1) σ) as (_ & _ & _ & Hu1).
  rewrite Hu, Hu2, Hu1, Hctx.
  destruct (contextID (req_ctx request)) as [s|]; split_and!; try done;
    try (apply le_S, le_n); by intros [? ?].
Qed.

End FurtherDispatch.

(** ** Examples of the further properties *)

(** A key in camel case is none of the keys that are read. *)
Lemma profile_reads_its_keys_only_witness :
  NewRequestConfig (L := demoLibs) "test" (Some demoCamelCaseMap) ∅
  = (defaultProfile (L := demoLibs) "test", ∅).
Proof.
  apply (proj1 (proj2 (profile_reads_its_keys_only (L := demoLibs) "test"
                         demoCamelCaseMap ∅ ∅))).
  intros k Hk. unfold profileKeys in Hk.
  repeat (apply elem_of_cons in Hk as [->|Hk]; [vm_compute; reflexivity|]).
  by apply elem_of_nil in Hk.
Defined.

Lemma breaker_reads_its_keys_only_witness :
  errorPercentThreshold (NewHystrixConfig (L := demoLibs) (Some demoMisspeltBreaker)) = 0
  ∧ sleepWindowInMillis (NewHystrixConfig (L := demoLibs) (Some demoMisspeltBreaker))
    = 5000.
Proof.
  rewrite (proj1 (proj2 (breaker_reads_its_keys_only (L := demoLibs)
                           (Some demoMisspeltBreaker) None))); [done|].
  intros k Hk. unfold breakerKeys in Hk.
  repeat (apply elem_of_cons in Hk as [->|Hk]; [vm_compute; reflexivity|]).
  by apply elem_of_nil in Hk.
Defined.

Lemma timeout_exact_in_range_witness :
  rc_timeout demoProfile = 5000 * Millisecond
  ∧ rc_connectTimeout demoProfile = 5000 * 100000.
Proof.
  destruct (timeout_exact_in_range (L := demoLibs) "test" demoConfigMap ∅
              (VInt 5000) 5000) as [Htimeout Hconnect];
    [vm_compute; reflexivity | reflexivity | lia |].
  split; [exact Htimeout | apply Hconnect; vm_compute; reflexivity].
Defined.

Lemma getClient_proxy_witness :
  hc_Transport (getClient (L := demoLibs) (SetProxy demoProxy demoProfile))
  = Some (HTTPTransport
            (withProxy (ProxyURL (demoProxy : @URL demoTypes)) demoTransport)).
Proof.
  apply (getClient_proxy (L := demoLibs) (SetProxy demoProxy demoProfile));
    [discriminate | vm_compute; reflexivity | reflexivity].
Defined.

Lemma proxy_needs_http_transport_witness :
  buildHTTPClient (L := demoLibs) (SetProxy demoProxy demoApiProfile)
  = buildHTTPClient (L := demoLibs) demoApiProfile.
Proof.
  apply (proxy_needs_http_transport (L := demoLibs) demoApiProfile demoProxy).
  left. reflexivity.
Defined.

Lemma fallback_needs_breaker_witness :
  SetHystrixFallback (Some "fallback"%string : option (@FallbackFunc demoTypes))
    demoBackoffProfile = demoBackoffProfile
  ∧ fallbackOf (buildHTTPClient (L := demoLibs)
                  (SetHystrixFallback
                     (Some "fallback"%string : option (@FallbackFunc demoTypes))
                     demoBreakerProfile))
    = Some "fallback"%string.
Proof.
  split.
  - exact (proj1 (proj1 (fallback_needs_breaker (L := demoLibs) demoBackoffProfile _)
                    eq_refl)).
  - refine (proj2 (proj2 (fallback_needs_breaker (L := demoLibs)
                            demoBreakerProfile _) _)).
    by eexists.
Defined.


Lemma registry_ignores_order_witness :
  ConfigureHTTPClient (L := demoLibs) [Some demoBreakerProfile; Some demoProfile]
  = ConfigureHTTPClient (L := demoLibs) [Some demoProfile; Some demoBreakerProfile]
  ∧ ∀ rc, Some rc ∈ [Some demoProfile; Some demoBreakerProfile] →
          hc_Transport (getClient (L := demoLibs) rc) = rc_transport rc.
Proof.
  apply (registry_ignores_order (L := demoLibs)); [|apply perm_swap|].
  - apply NoDup_cons. split; [|apply NoDup_singleton].
    intros Hin%list_elem_of_singleton. discriminate Hin.
  - intros rc Hin. left.
    apply elem_of_cons in Hin as [[= ->]|Hin]; [reflexivity|].
    apply list_elem_of_singleton in Hin as [= ->]. reflexivity.
Defined.

Lemma observers_after_success_witness :
  (demoRun (NewRequest "test") (demoState [(Some 200, None)])).1.1
  = Returned (Some 200 : option (@Response demoTypes), None)
  ∧ ∃ ms, demoLogged
          = [EvLog ("logger"%string : @Logger demoTypes) None
               (fulfilled "test" 200 ms)].
Proof.
  destruct (observers_after_success (L := demoLibs) (R := demoRuntime) demoClient
              (NewRequest "test") (demoState [(Some 200, None)]) demoEngine
              (demoWire "uuid-0") 200 demoLogged demo_trace)
    as (Hout & ms1 & ms2 & Htail).
  split; [exact Hout|]. exists ms1. exact Htail.
Defined.

Lemma engine_error_is_returned_witness :
  (demoRun (NewRequest "test") (demoState [(None, Some demoTimeout)])).1.1
  = Returned (None, Some demoTimeout)
  ∧ events (demoRun (NewRequest "test") (demoState [(None, Some demoTimeout)])).2
    = [EvDo demoEngine (demoWire "uuid-0") None (Some demoTimeout)].
Proof.
  assert (events (demoRun (NewRequest "test")
                    (demoState [(None, Some demoTimeout)])).2
          = events (demoState [(None, Some demoTimeout)])
            ++ EvDo demoEngine (demoWire "uuid-0") None (Some demoTimeout) :: [])
    as Hev.
  { vm_compute. reflexivity. }
  split; [|exact Hev].
  exact (proj1 (engine_error_is_returned (L := demoLibs) (R := demoRuntime)
                  demoClient _ _ _ _ _ _ _ Hev)).
Defined.

Lemma build_failure_aborts_witness :
  (demoRun demoBadCall (demoState [(Some 200, None)])).1.1
  = Returned (None, Some (errors_New "net/http: invalid method BAD METHOD"))
  ∧ events (demoRun demoBadCall (demoState [(Some 200, None)])).2 = [].
Proof.
  destruct (build_failure_aborts (L := demoLibs) (R := demoRuntime) demoClient
              demoBadCall (demoState [(Some 200, None)]) demoEngine demoProfile
              (errors_New "net/http: invalid method BAD METHOD") demo_registered)
    as (Hout & Hev & _); [vm_compute; reflexivity|].
  split; [exact Hout | exact Hev].
Defined.

Lemma wire_request_of_call_witness :
  http_parseRequest (GoLibs := demoLibs) (rc_method demoProfile) (rc_url demoProfile)
  = inl (Method (demoWire "uuid-0"), URL_ (demoWire "uuid-0")).
Proof.
  destruct (wire_request_of_call (L := demoLibs) (R := demoRuntime) demoClient
              (NewRequest "test") (demoState [(Some 200, None)]) demoEngine
              demoProfile (demoWire "uuid-0") (Some 200) None demoLogged
              demo_registered demo_trace)
    as (u & Hparse & _ & _ & _ & Hnone & _).
  rewrite (Hnone eq_refl). exact Hparse.
Defined.

Lemma dispatched_call_is_stable_witness :
  (demoRun (demoRun (NewRequest "test") (demoState [(Some 200, None)])).1.2
     (demoState [])).1.2
  = (demoRun (NewRequest "test") (demoState [(Some 200, None)])).1.2.
Proof.
  exact (dispatched_call_is_stable (L := demoLibs) (R := demoRuntime) demoClient
           (NewRequest "test") (demoState [(Some 200, None)]) demoEngine demoProfile
           (demoState []) demo_registered).
Defined.

Lemma stale_identifier_is_overwritten_witness :
  maps (demoRun (NewRequest "test")
          (demoRun (NewRequest "test") (demoState [(Some 200, None)])).2).2
    !! 1%positive
  = Some (<[requestIDHeader := "uuid-1"%string]> demoHeaders).
Proof.
  pose proof (stale_identifier_is_overwritten (L := demoLibs) (R := demoRuntime)
                demoClient (NewRequest "test") (NewRequest "test")
                (demoState [(Some 200, None)]) demoEngine demoProfile 1%positive
                demoHeaders demo_registered eq_refl eq_refl eq_refl) as Hsecond.
  cbv zeta in Hsecond.
  assert (requestID (L := demoLibs) (req_ctx (NewRequest (T := demoTypes) "test"))
            (uuids (Client_Request (L := demoLibs) (R := demoRuntime) demoClient
                      (NewRequest "test") (demoState [(Some 200, None)])).2)
          = "uuid-1"%string) as Hid by (vm_compute; reflexivity).
  rewrite Hid in Hsecond. apply Hsecond; vm_compute; reflexivity.
Defined.
